(** * Verification of the strategy layer and backtest engine of kalshi-sports-alpha

    Floats of the Python source are modelled as exact rationals [Q]; Python's
    [min]/[max], [int()] truncation, [len] and guarded divisions are written out. *)

From Stdlib Require Import QArith Qround Lqa ZArith Lia List String Bool.
From Stdlib Require Import Sorted Permutation.
Import ListNotations.
Open Scope Q_scope.
Open Scope string_scope.
Open Scope list_scope.

(** ** Python numeric helpers *)

(** [min(a, b)]: keeps [a] unless [b < a]. *)
Definition py_min (a b : Q) : Q := if Qle_bool a b then a else b.

(** [max(a, b)]: keeps [a] unless [b > a]. *)
Definition py_max (a b : Q) : Q := if Qle_bool b a then a else b.

(** Strict comparison [a < b] as a boolean. *)
Definition qltb (a b : Q) : bool := negb (Qle_bool b a).

(** [int(x)] on a float: truncation towards zero. *)
Definition py_int (x : Q) : Z :=
  if Qle_bool 0 x then Qfloor x else (- Qfloor (- x))%Z.

(** [len(l)] as a number. *)
Definition qlen {A} (l : list A) : Q := inject_Z (Z.of_nat (List.length l)).

(** [sum(l)]. *)
Definition qsum (l : list Q) : Q := fold_right Qplus 0 l.

(** Python dicts as association lists: assignment replaces the value of an
    existing key in place and appends a new key at the end. *)
Section Dict.
Context {K V : Type} (keqb : K -> K -> bool).

Fixpoint dict_get (d : list (K * V)) (k : K) (dflt : V) : V :=
  match d with
  | [] => dflt
  | (k', v) :: r => if keqb k' k then v else dict_get r k dflt
  end.

Fixpoint dict_set (d : list (K * V)) (k : K) (v : V) : list (K * V) :=
  match d with
  | [] => [(k, v)]
  | (k', v') :: r => if keqb k' k then (k', v) :: r else (k', v') :: dict_set r k v
  end.
End Dict.

(** ** signals/signal_base.py *)
Module Signals.

Inductive SignalDirection := YES | NO | NEUTRAL.

Definition dir_eqb (a b : SignalDirection) : bool :=
  match a, b with
  | YES, YES | NO, NO | NEUTRAL, NEUTRAL => true
  | _, _ => false
  end.

Record Signal := {
  name : string;
  direction : SignalDirection;
  strength : Q;
  confidence : Q;
  market_id : option string;
  features_used : list string
}.

(** [Signal(...)] with [__post_init__] clamping strength and confidence. *)
Definition mk_signal (nm : string) (d : SignalDirection) (st cf : Q)
           (mid : option string) (feats : list string) : Signal :=
  {| name := nm; direction := d;
     strength := py_max 0 (py_min 1 st);
     confidence := py_max 0 (py_min 1 cf);
     market_id := mid; features_used := feats |}.

Definition composite_score (s : Signal) : Q := strength s * confidence s.

Definition is_actionable (s : Signal) : bool :=
  negb (dir_eqb (direction s) NEUTRAL) && Qle_bool (3 # 10) (composite_score s).

End Signals.
Import Signals.

(** ** strategy/aggregator.py *)
Module Aggregator.

(** [set(xs)] as a duplicate-free list. *)
Fixpoint to_set (l : list string) : list string :=
  match l with
  | [] => []
  | x :: r => if existsb (String.eqb x) r then to_set r else x :: to_set r
  end.

Definition mem (x : string) (l : list string) : bool := existsb (String.eqb x) l.

Definition set_inter (a b : list string) : list string := filter (fun x => mem x b) a.
Definition set_union (a b : list string) : list string :=
  a ++ filter (fun x => negb (mem x a)) b.

Definition compute_feature_overlap (sa sb : Signal) : Q :=
  let fa := to_set (features_used sa) in
  let fb := to_set (features_used sb) in
  match fa, fb with
  | [], _ | _, [] => 0
  | _, _ =>
      let inter := set_inter fa fb in
      let uni := set_union fa fb in
      match uni with [] => 0 | _ => qlen inter / qlen uni end
  end.

(** [tuple(sorted([a, b]))] *)
Definition pair_key (a b : string) : string * string :=
  if String.leb a b then (a, b) else (b, a).

Definition key_eqb (k1 k2 : string * string) : bool :=
  String.eqb (fst k1) (fst k2) && String.eqb (snd k1) (snd k2).

Definition Correlations := list ((string * string) * Q).

(** The inner loop [for sig_b in signals[i + 1:]]. *)
Definition inner_loop (sa : Signal) (rest : list Signal) (acc : Correlations)
  : Correlations :=
  fold_left (fun d sb =>
               dict_set key_eqb d (pair_key (name sa) (name sb))
                        (compute_feature_overlap sa sb)) rest acc.

Fixpoint outer_loop (sigs : list Signal) (acc : Correlations) : Correlations :=
  match sigs with
  | [] => acc
  | sa :: rest => outer_loop rest (inner_loop sa rest acc)
  end.

Definition compute_pairwise_correlations (sigs : list Signal) : Correlations :=
  outer_loop sigs [].

Record AggregatedSignal := {
  agg_market_id : option string;
  agg_direction : SignalDirection;
  aggregate_score : Q;
  agg_confidence : Q;
  contributing_signals : list Signal;
  weights_used : list (string * Q);
  feature_correlations : Correlations;
  avg_correlation : Q;
  independent_signal_count : Q
}.

Definition signal_count (a : AggregatedSignal) : nat := List.length (contributing_signals a).

(** The [agreement_ratio] property. *)
Definition agreement_ratio (a : AggregatedSignal) : Q :=
  match contributing_signals a with
  | [] => 0
  | cs => qlen (filter (fun s => dir_eqb (direction s) (agg_direction a)) cs) / qlen cs
  end.

Record AggregatorConfig := {
  weights : list (string * Q);
  min_signals : Z;
  require_agreement : bool;
  min_agreement_ratio : Q
}.

Definition default_config : AggregatorConfig :=
  {| weights := []; min_signals := 2; require_agreement := true;
     min_agreement_ratio := 6 # 10 |}.

Definition default_weight : Q := 1.

Record Tally := {
  yes_score : Q; no_score : Q; yes_weight : Q; no_weight : Q;
  yes_count : Z; no_count : Z; t_weights_used : list (string * Q)
}.

Definition tally0 : Tally :=
  {| yes_score := 0; no_score := 0; yes_weight := 0; no_weight := 0;
     yes_count := 0; no_count := 0; t_weights_used := [] |}.

(** One iteration of [for signal in directional]. *)
Definition tally_step (cfg : AggregatorConfig) (t : Tally) (s : Signal) : Tally :=
  let w := dict_get String.eqb (weights cfg) (name s) default_weight in
  let ws := composite_score s * w in
  let wu := dict_set String.eqb (t_weights_used t) (name s) w in
  match direction s with
  | YES => {| yes_score := yes_score t + ws; no_score := no_score t;
              yes_weight := yes_weight t + w; no_weight := no_weight t;
              yes_count := (yes_count t + 1)%Z; no_count := no_count t;
              t_weights_used := wu |}
  | _ => {| yes_score := yes_score t; no_score := no_score t + ws;
            yes_weight := yes_weight t; no_weight := no_weight t + w;
            yes_count := yes_count t; no_count := (no_count t + 1)%Z;
            t_weights_used := wu |}
  end.

Definition tally (cfg : AggregatorConfig) (l : list Signal) : Tally :=
  fold_left (tally_step cfg) l tally0.

Definition directional (sigs : list Signal) : list Signal :=
  filter (fun s => negb (dir_eqb (direction s) NEUTRAL)) sigs.

(** [Determine direction]: the winner, its aggregate score and agreeing count. *)
Definition pick_direction (t : Tally) : option (SignalDirection * Q * Z) :=
  if qltb (no_score t) (yes_score t) then
    Some (YES, (if qltb 0 (yes_weight t) then yes_score t / yes_weight t else 0),
          yes_count t)
  else if qltb (yes_score t) (no_score t) then
    Some (NO, (if qltb 0 (no_weight t) then no_score t / no_weight t else 0),
          no_count t)
  else None.

Definition avg_of_correlations (c : Correlations) : Q :=
  match c with [] => 0 | _ => qsum (map snd c) / qlen c end.

Definition independent_count (n avg : Q) : Q :=
  if qltb 0 n then n / (1 + (n - 1) * avg) else 0.

Definition aggregate (cfg : AggregatorConfig) (signals : list Signal)
  : option AggregatedSignal :=
  if (Z.of_nat (List.length signals) <? min_signals cfg)%Z then None else
  let dl := directional signals in
  match dl with
  | [] => None
  | d0 :: _ =>
    if (Z.of_nat (List.length dl) <? min_signals cfg)%Z then None else
    let t := tally cfg dl in
    match pick_direction t with
    | None => None
    | Some (dir, agg_score, agreeing) =>
      let ratio := inject_Z agreeing / qlen dl in
      if require_agreement cfg && qltb ratio (min_agreement_ratio cfg) then None else
      let avg_conf := qsum (map confidence dl) / qlen dl in
      let correlations := compute_pairwise_correlations dl in
      let avg_corr := avg_of_correlations correlations in
      let n := qlen dl in
      let indep := independent_count n avg_corr in
      let penalty := 1 - avg_corr * (3 # 10) in
      Some {| agg_market_id := market_id d0;
              agg_direction := dir;
              aggregate_score := agg_score;
              agg_confidence := ratio * avg_conf * penalty;
              contributing_signals := dl;
              weights_used := t_weights_used t;
              feature_correlations := correlations;
              avg_correlation := avg_corr;
              independent_signal_count := indep |}
    end
  end.

End Aggregator.

(** ** strategy/ranker.py *)
Module Ranker.
Import Aggregator.

(** A market's metadata dict; each [market.get(k, default)] supplies its own
    default, so absent keys are [None]. *)
Record Market := {
  m_yes_ask : option Q;
  m_no_ask : option Q;
  m_spread : option Q;
  m_event_id : option string;
  m_time_to_resolution : option Q;
  m_league : option string;
  m_liquidity_score : option Q;
  m_time_to_kickoff : option Q;
  m_available_depth : option Q
}.

Definition empty_market : Market :=
  {| m_yes_ask := None; m_no_ask := None; m_spread := None; m_event_id := None;
     m_time_to_resolution := None; m_league := None; m_liquidity_score := None;
     m_time_to_kickoff := None; m_available_depth := None |}.

Definition get_or {A} (o : option A) (d : A) : A :=
  match o with Some x => x | None => d end.

(** [market_data.get(agg.market_id, {})] *)
Definition lookup_market (market_data : list (string * Market)) (mid : option string)
  : Market :=
  match mid with
  | Some k => dict_get String.eqb market_data k empty_market
  | None => empty_market
  end.

Definition dir_value (d : SignalDirection) : string :=
  match d with YES => "YES" | NO => "NO" | NEUTRAL => "NEUTRAL" end.

(** Risk flags: the ranker's named flags and the portfolio's limit violations. *)
Inductive LimitViolation :=
| TotalExposureViolation (proposed_total cap : Q)
| MarketExposureViolation (cap : Q)
| EventExposureViolation (cap : Q)
| LeagueExposureViolation (cap : Q).

Inductive RiskFlag := Flag (s : string) | LimitFlag (v : LimitViolation).

(** The f-string rejection reasons, with their numeric payloads. *)
Inductive RejectionReason :=
| EvBelowThreshold (ev min_ev : Q)
| ConfidenceBelowThreshold (conf min_conf : Q).

Record Recommendation := {
  rec_market_id : option string;
  rec_event_id : string;
  rec_contract : string;
  rec_entry_price : Q;
  rec_max_size : Z;
  rec_expected_value : Q;
  rec_time_to_resolution : option Q;
  rec_contributing_signals : list string;
  rec_risk_flags : list RiskFlag;
  rec_league : string;
  rec_rank_score : Q;
  rec_confidence : Q
}.

Record CandidateOpportunity := {
  cand_market_id : option string;
  cand_event_id : string;
  cand_direction : string;
  cand_entry_price : Q;
  cand_expected_value : Q;
  cand_confidence : Q;
  cand_signals : list string;
  rejection_reasons : list RejectionReason;
  cand_rank_score : Q;
  cand_league : string;
  ev_threshold : Q;
  confidence_threshold : Q
}.

Definition is_recommended (c : CandidateOpportunity) : bool :=
  Nat.eqb (List.length (rejection_reasons c)) 0.

Record RankerConfig := {
  min_ev : Q;
  min_confidence : Q;
  max_recommendations : Z;
  ev_weight : Q;
  confidence_weight : Q;
  liquidity_weight : Q;
  timing_weight : Q
}.

Definition default_ranker : RankerConfig :=
  {| min_ev := 2 # 100; min_confidence := 3 # 10; max_recommendations := 10;
     ev_weight := 4 # 10; confidence_weight := 3 # 10; liquidity_weight := 2 # 10;
     timing_weight := 1 # 10 |}.

Definition max_edge : Q := 1 # 10.

Definition calculate_expected_value (agg : AggregatedSignal) (entry_price : Q)
           (market : Market) : Q :=
  let spread := get_or (m_spread market) (2 # 100) in
  let vig := spread / 2 in
  let signal_edge := aggregate_score agg * max_edge in
  let agreement_scaling := (1 # 2) + (1 # 2) * agreement_ratio agg in
  let estimated_edge := signal_edge * agreement_scaling in
  let market_implied_prob := entry_price in
  let estimated_win_prob := py_min (95 # 100) (market_implied_prob + estimated_edge) in
  let win_profit := 1 - entry_price in
  let loss_amount := entry_price in
  let gross_ev := estimated_win_prob * win_profit - (1 - estimated_win_prob) * loss_amount in
  gross_ev - vig.

Definition calculate_rank_score (cfg : RankerConfig) (rec : Recommendation)
           (market : Market) : Q :=
  let ev_score := py_min 1 (rec_expected_value rec / (1 # 10)) in
  let conf_score := rec_confidence rec in
  let liquidity := get_or (m_liquidity_score market) (1 # 2) in
  let time_to_kickoff := get_or (m_time_to_kickoff market) 86400 in
  let timing_score := py_max 0 (1 - time_to_kickoff / 7200) in
  ev_weight cfg * ev_score + confidence_weight cfg * conf_score
  + liquidity_weight cfg * liquidity + timing_weight cfg * timing_score.

Definition calculate_max_size (agg : AggregatedSignal) (market : Market) : Z :=
  let base_size := py_int (100 * agg_confidence agg) in
  let liquidity := get_or (m_liquidity_score market) (1 # 2) in
  let size := py_int (inject_Z base_size * liquidity) in
  let depth := get_or (m_available_depth market) 1000 in
  let size := Z.min size (py_int (depth * (1 # 10))) in
  Z.max 10 size.

Definition identify_risks (agg : AggregatedSignal) (market : Market) : list RiskFlag :=
  (if qltb (get_or (m_liquidity_score market) 1) (3 # 10) then [Flag "low_liquidity"] else [])
  ++ (if qltb (1 # 20) (get_or (m_spread market) 0) then [Flag "wide_spread"] else [])
  ++ (if Nat.eqb (signal_count agg) 1 then [Flag "single_signal"] else [])
  ++ (if qltb (agreement_ratio agg) (7 # 10) then [Flag "signal_disagreement"] else [])
  ++ (if qltb (get_or (m_time_to_resolution market) 86400) 1800
      then [Flag "near_resolution"] else []).

(** [list.sort(key=...)]: a stable sort, ascending in the key. *)
Fixpoint insert_by {A} (key : A -> Q) (x : A) (l : list A) : list A :=
  match l with
  | [] => [x]
  | y :: r => if Qle_bool (key x) (key y) then x :: y :: r else y :: insert_by key x r
  end.

Definition sort_by_key {A} (key : A -> Q) (l : list A) : list A :=
  fold_right (insert_by key) [] l.

(** [l[:k]] *)
Definition py_take {A} (k : Z) (l : list A) : list A :=
  if (0 <=? k)%Z then firstn (Z.to_nat k) l
  else firstn (Z.to_nat (Z.of_nat (List.length l) + k)) l.

(** The body of the [rank_all] loop for one aggregated signal. *)
Definition entry_price_for (market : Market) (agg : AggregatedSignal) : Q :=
  match agg_direction agg with
  | YES => get_or (m_yes_ask market) (1 # 2)
  | _ => get_or (m_no_ask market) (1 # 2)
  end.

Definition rejection_reasons_for (cfg : RankerConfig) (ev conf : Q)
  : list RejectionReason :=
  (if qltb ev (min_ev cfg) then [EvBelowThreshold ev (min_ev cfg)] else [])
  ++ (if qltb conf (min_confidence cfg)
      then [ConfidenceBelowThreshold conf (min_confidence cfg)] else []).

Definition temp_rec (market : Market) (agg : AggregatedSignal) : Recommendation :=
  let entry_price := entry_price_for market agg in
  let ev := calculate_expected_value agg entry_price market in
  {| rec_market_id := agg_market_id agg;
     rec_event_id := get_or (m_event_id market) EmptyString;
     rec_contract := dir_value (agg_direction agg);
     rec_entry_price := entry_price;
     rec_max_size := calculate_max_size agg market;
     rec_expected_value := ev;
     rec_time_to_resolution := m_time_to_resolution market;
     rec_contributing_signals := map name (contributing_signals agg);
     rec_risk_flags := identify_risks agg market;
     rec_league := get_or (m_league market) EmptyString;
     rec_rank_score := 0;
     rec_confidence := agg_confidence agg |}.

Definition set_rank_score (r : Recommendation) (s : Q) : Recommendation :=
  {| rec_market_id := rec_market_id r; rec_event_id := rec_event_id r;
     rec_contract := rec_contract r; rec_entry_price := rec_entry_price r;
     rec_max_size := rec_max_size r; rec_expected_value := rec_expected_value r;
     rec_time_to_resolution := rec_time_to_resolution r;
     rec_contributing_signals := rec_contributing_signals r;
     rec_risk_flags := rec_risk_flags r; rec_league := rec_league r;
     rec_rank_score := s; rec_confidence := rec_confidence r |}.

Definition evaluated_rec (cfg : RankerConfig) (market_data : list (string * Market))
           (agg : AggregatedSignal) : Recommendation :=
  let market := lookup_market market_data (agg_market_id agg) in
  let r := temp_rec market agg in
  set_rank_score r (calculate_rank_score cfg r market).

Definition evaluated_reasons (cfg : RankerConfig) (market_data : list (string * Market))
           (agg : AggregatedSignal) : list RejectionReason :=
  let r := evaluated_rec cfg market_data agg in
  rejection_reasons_for cfg (rec_expected_value r) (agg_confidence agg).

Definition evaluated_candidate (cfg : RankerConfig) (market_data : list (string * Market))
           (agg : AggregatedSignal) : CandidateOpportunity :=
  let market := lookup_market market_data (agg_market_id agg) in
  let r := evaluated_rec cfg market_data agg in
  {| cand_market_id := agg_market_id agg;
     cand_event_id := get_or (m_event_id market) EmptyString;
     cand_direction := dir_value (agg_direction agg);
     cand_entry_price := rec_entry_price r;
     cand_expected_value := rec_expected_value r;
     cand_confidence := agg_confidence agg;
     cand_signals := map name (contributing_signals agg);
     rejection_reasons := evaluated_reasons cfg market_data agg;
     cand_rank_score := rec_rank_score r;
     cand_league := get_or (m_league market) EmptyString;
     ev_threshold := min_ev cfg;
     confidence_threshold := min_confidence cfg |}.

Definition rank_all_step (cfg : RankerConfig) (market_data : list (string * Market))
           (acc : list Recommendation * list CandidateOpportunity)
           (agg : AggregatedSignal) : list Recommendation * list CandidateOpportunity :=
  let '(recommendations, watchlist) := acc in
  match evaluated_reasons cfg market_data agg with
  | [] => (recommendations ++ [evaluated_rec cfg market_data agg], watchlist)
  | _ => (recommendations, watchlist ++ [evaluated_candidate cfg market_data agg])
  end.

Definition rank_all (cfg : RankerConfig) (aggregated_signals : list AggregatedSignal)
           (market_data : list (string * Market))
  : list Recommendation * list CandidateOpportunity :=
  let '(recommendations, watchlist) :=
    fold_left (rank_all_step cfg market_data) aggregated_signals ([], []) in
  (py_take (max_recommendations cfg)
           (sort_by_key (fun r => - rec_rank_score r) recommendations),
   sort_by_key (fun c => - cand_rank_score c) watchlist).

(** The body of the [rank] loop: both filters [continue] past the signal. *)
Definition rank_step (cfg : RankerConfig) (market_data : list (string * Market))
           (recommendations : list Recommendation) (agg : AggregatedSignal)
  : list Recommendation :=
  let market := lookup_market market_data (agg_market_id agg) in
  let rec := temp_rec market agg in
  let ev := rec_expected_value rec in
  if qltb ev (min_ev cfg) then recommendations
  else if qltb (agg_confidence agg) (min_confidence cfg) then recommendations
  else recommendations ++ [set_rank_score rec (calculate_rank_score cfg rec market)].

Definition rank (cfg : RankerConfig) (aggregated_signals : list AggregatedSignal)
           (market_data : list (string * Market)) : list Recommendation :=
  let recommendations := fold_left (rank_step cfg market_data) aggregated_signals [] in
  py_take (max_recommendations cfg)
          (sort_by_key (fun r => - rec_rank_score r) recommendations).

End Ranker.

(** ** strategy/sizing.py *)
Module Sizing.

Record SizingParams := {
  base_size : Q;
  max_size : Q;
  min_size : Q;
  kelly_fraction : Q;
  confidence_scale : Q
}.

Definition default_params : SizingParams :=
  {| base_size := 100; max_size := 500; min_size := 10;
     kelly_fraction := 1 # 4; confidence_scale := 1 |}.

(** [SizingParams] with another [kelly_fraction]. *)
Definition with_kelly_fraction (p : SizingParams) (k : Q) : SizingParams :=
  {| base_size := base_size p; max_size := max_size p; min_size := min_size p;
     kelly_fraction := k; confidence_scale := confidence_scale p |}.

Definition kelly_size (p : SizingParams) (win_prob entry_price : Q)
           (bankroll : option Q) : Q :=
  let bankroll := match bankroll with Some b => b | None => base_size p * 10 end in
  if Qle_bool win_prob 0 || Qle_bool 1 win_prob then 0 else
  if Qle_bool entry_price 0 || Qle_bool 1 entry_price then 0 else
  let b := (1 - entry_price) / entry_price in
  let q := 1 - win_prob in
  let kelly := (b * win_prob - q) / b in
  if Qle_bool kelly 0 then 0 else
  let adjusted_fraction := kelly * kelly_fraction p in
  let kelly_dollars := bankroll * adjusted_fraction in
  py_max 0 kelly_dollars.

Definition time_adjustment (seconds : Q) : Q :=
  let hours := seconds / 3600 in
  if qltb hours (1 # 2) then 1 # 2
  else if qltb hours 1 then 7 # 10
  else if qltb hours 2 then 85 # 100
  else 1.

Definition max_edge : Q := 1 # 10.

Definition calculate (p : SizingParams) (signal_confidence entry_price liquidity_score : Q)
           (time_to_resolution available_depth bankroll : option Q) : Z :=
  let estimated_win_prob := entry_price + signal_confidence * max_edge in
  let estimated_win_prob := py_min (95 # 100) (py_max (5 # 100) estimated_win_prob) in
  let size := kelly_size p estimated_win_prob entry_price bankroll in
  let size := if Qle_bool size 0 then min_size p * signal_confidence else size in
  let size := size * liquidity_score in
  let size := match time_to_resolution with
              | Some s => size * time_adjustment s
              | None => size
              end in
  let size := match available_depth with
              | Some d => py_min size (d * (1 # 10))
              | None => size
              end in
  let size := py_max (min_size p) (py_min (max_size p) size) in
  py_int size.

Definition size_for_target_risk (target_risk entry_price : Q) (stop_price : option Q) : Z :=
  let stop_price := match stop_price with Some s => s | None => 0 end in
  let risk_per_contract := entry_price - stop_price in
  if Qle_bool risk_per_contract 0 then 0%Z
  else py_int (target_risk / risk_per_contract).

(** [optimal_bet_fraction]; [None] is the [ZeroDivisionError] raised when
    [loss_amount] or the payout ratio [b] is zero. *)
Definition optimal_bet_fraction (win_probability win_payout loss_amount : Q) : option Q :=
  if Qle_bool win_probability 0 || Qle_bool 1 win_probability then Some 0 else
  if Qeq_bool loss_amount 0 then None else
  let b := win_payout / loss_amount in
  let p := win_probability in
  let q := 1 - p in
  if Qeq_bool b 0 then None else
  let kelly := (b * p - q) / b in
  Some (py_max 0 kelly).

End Sizing.

(** ** strategy/portfolio.py *)
Module Portfolio.
Import Ranker.

Record PortfolioPosition := {
  pp_market_id : option string;
  pp_event_id : string;
  pp_league : string;
  pp_direction : string;
  pp_size : Z;
  pp_entry_price : Q
}.

Definition exposure (p : PortfolioPosition) : Q := inject_Z (pp_size p) * pp_entry_price p.

Record PortfolioLimits := {
  max_total_exposure : Q;
  max_per_market : Q;
  max_per_event : Q;
  max_per_league : Q;
  max_correlated : Q
}.

Definition default_limits : PortfolioLimits :=
  {| max_total_exposure := 5000; max_per_market := 500; max_per_event := 1000;
     max_per_league := 2000; max_correlated := 1500 |}.

Definition opt_eqb (a b : option string) : bool :=
  match a, b with
  | Some x, Some y => String.eqb x y
  | None, None => true
  | _, _ => false
  end.

Definition total_exposure (positions : list PortfolioPosition) : Q :=
  qsum (map exposure positions).

Definition market_exposure (positions : list PortfolioPosition) (rec : Recommendation) : Q :=
  qsum (map exposure (filter (fun p => opt_eqb (pp_market_id p) (rec_market_id rec)) positions)).

Definition event_exposure (positions : list PortfolioPosition) (rec : Recommendation) : Q :=
  qsum (map exposure (filter (fun p => String.eqb (pp_event_id p) (rec_event_id rec)) positions)).

Definition league_exposure (positions : list PortfolioPosition) (rec : Recommendation) : Q :=
  qsum (map exposure (filter (fun p => String.eqb (pp_league p) (rec_league rec)) positions)).

Definition check_limits (lim : PortfolioLimits) (positions : list PortfolioPosition)
           (rec : Recommendation) : bool * list LimitViolation :=
  let proposed := rec_entry_price rec * inject_Z (rec_max_size rec) in
  let tot := total_exposure positions in
  let violations :=
    (if qltb (max_total_exposure lim) (tot + proposed)
     then [TotalExposureViolation (tot + proposed) (max_total_exposure lim)] else [])
    ++ (if qltb (max_per_market lim) (market_exposure positions rec + proposed)
        then [MarketExposureViolation (max_per_market lim)] else [])
    ++ (if qltb (max_per_event lim) (event_exposure positions rec + proposed)
        then [EventExposureViolation (max_per_event lim)] else [])
    ++ (if qltb (max_per_league lim) (league_exposure positions rec + proposed)
        then [LeagueExposureViolation (max_per_league lim)] else []) in
  (Nat.eqb (List.length violations) 0, violations).

Definition size_to_fit (lim : PortfolioLimits) (positions : list PortfolioPosition)
           (rec : Recommendation) : Z :=
  let available_total := max_total_exposure lim - total_exposure positions in
  let available_event := max_per_event lim - event_exposure positions rec in
  let available_league := max_per_league lim - league_exposure positions rec in
  let available := py_min (py_min (py_min available_total available_event)
                                  available_league) (max_per_market lim) in
  if Qle_bool available 0 || Qle_bool (rec_entry_price rec) 0 then 0%Z
  else py_int (available / rec_entry_price rec).

Definition with_size_flags (r : Recommendation) (sz : Z) (fl : list RiskFlag)
  : Recommendation :=
  {| rec_market_id := rec_market_id r; rec_event_id := rec_event_id r;
     rec_contract := rec_contract r; rec_entry_price := rec_entry_price r;
     rec_max_size := sz; rec_expected_value := rec_expected_value r;
     rec_time_to_resolution := rec_time_to_resolution r;
     rec_contributing_signals := rec_contributing_signals r;
     rec_risk_flags := fl; rec_league := rec_league r;
     rec_rank_score := rec_rank_score r; rec_confidence := rec_confidence r |}.

(** The correlation step of [adjust_for_correlation] for one recommendation. *)
Definition correlation_step (positions : list PortfolioPosition) (rec : Recommendation)
  : Recommendation :=
  let event_positions := filter (fun p => String.eqb (pp_event_id p) (rec_event_id rec))
                                positions in
  match event_positions with
  | [] => rec
  | _ =>
    if existsb (fun p => String.eqb (pp_direction p) (rec_contract rec)) event_positions
    then with_size_flags rec (py_int (inject_Z (rec_max_size rec) * (1 # 2)))
                         (rec_risk_flags rec ++ [Flag "correlated_position"])
    else with_size_flags rec (rec_max_size rec)
                         (rec_risk_flags rec ++ [Flag "opposite_position_exists"])
  end.

(** The limit step: on a violation, flag it and resize with [_size_to_fit]. *)
Definition limit_step (lim : PortfolioLimits) (positions : list PortfolioPosition)
           (rec : Recommendation) : Recommendation :=
  let '(allowed, violations) := check_limits lim positions rec in
  if allowed then rec
  else
    let rec' := with_size_flags rec (rec_max_size rec)
                                (rec_risk_flags rec ++ map LimitFlag violations) in
    with_size_flags rec' (size_to_fit lim positions rec') (rec_risk_flags rec').

Definition adjust_one (lim : PortfolioLimits) (positions : list PortfolioPosition)
           (rec : Recommendation) : Recommendation :=
  limit_step lim positions (correlation_step positions rec).

Fixpoint adjust_for_correlation (lim : PortfolioLimits)
         (positions : list PortfolioPosition) (recs : list Recommendation)
  : list Recommendation :=
  match recs with
  | [] => []
  | rec :: rest =>
    let rec' := adjust_one lim positions rec in
    if (10 <=? rec_max_size rec')%Z
    then rec' :: adjust_for_correlation lim positions rest
    else adjust_for_correlation lim positions rest
  end.

End Portfolio.

(** ** backtest/fills.py *)
Module Fills.

Record Fill := {
  requested_size : Q;
  filled_size : Q;
  avg_price : Q;
  slippage : Q
}.

Definition fill_rate (f : Fill) : Q :=
  if Qeq_bool (requested_size f) 0 then 0 else filled_size f / requested_size f.

Record SlippageModel := {
  base_slippage_bps : Q;
  size_impact_factor : Q;
  volatility_factor : Q
}.

Definition default_slippage : SlippageModel :=
  {| base_slippage_bps := 10; size_impact_factor := 1 # 10; volatility_factor := 1 |}.

Definition estimate_slippage (m : SlippageModel) (size depth volatility spread : Q) : Q :=
  let s := base_slippage_bps m / 10000 in
  let s := if qltb 0 depth then s + size_impact_factor m * (size / depth) else s in
  let s := s * (1 + volatility * volatility_factor m) in
  py_max s (spread / 2).

Record FillModel := {
  slippage_model : SlippageModel;
  partial_fill_prob : Q;
  min_fill_pct : Q
}.

Definition default_fill_model : FillModel :=
  {| slippage_model := default_slippage; partial_fill_prob := 1 # 10;
     min_fill_pct := 1 # 2 |}.

(** The shared source behind [random.random()]: a stream of draws and the
    index of the next one. *)
Definition Rng := nat -> Q.

(** [random.uniform(a, b)] is [a + (b - a) * random.random()]. *)
Definition uniform (a b r : Q) : Q := a + (b - a) * r.

Definition simulate_fill (fm : FillModel) (rng : Rng) (i : nat) (side : string)
           (size price depth volatility spread : Q) : option Fill * nat :=
  if Qle_bool size 0 || Qle_bool depth 0 then (None, i) else
  let '(filled_size, i') :=
    if qltb depth size then (depth, i)
    else if qltb (rng i) (partial_fill_prob fm) then
      let fill_pct := uniform (min_fill_pct fm) 1 (rng (S i)) in
      (inject_Z (py_int (size * fill_pct)), S (S i))
    else (size, S i) in
  if Qle_bool filled_size 0 then (None, i') else
  let slip := estimate_slippage (slippage_model fm) filled_size depth volatility spread in
  let avg := if String.eqb side "YES" then price + slip else price - slip in
  let avg := py_max (1 # 100) (py_min (99 # 100) avg) in
  (Some {| requested_size := size; filled_size := filled_size; avg_price := avg;
           slippage := slip |}, i').

End Fills.

(** ** backtest/simulator.py *)
Module Simulator.
Import Fills.

Record BacktestConfig := {
  start_date : Z;
  end_date : Z;
  initial_capital : Q;
  max_position_pct : Q;
  include_fees : bool;
  fee_per_contract : Q
}.

Record Position := {
  pos_market_id : string;
  pos_direction : string;
  pos_size : Q;
  pos_entry_price : Q;
  pos_entry_time : Z;
  exit_price : option Q;
  exit_time : option Z
}.

(** A historical snapshot dict, with timestamps as seconds. *)
Record Snapshot := {
  timestamp : Z;
  snap_market_id : option string;
  snap_price : option Q;
  snap_depth : option Q;
  settled_markets : list (string * string)
}.

(** A generated signal as the simulator reads it. *)
Record BSignal := { sig_direction : string; sig_max_size : Q }.

(** A generator raising is skipped, like one returning [None]. *)
Definition Generator := Snapshot -> option BSignal.

Record BacktestState := {
  capital : Q;
  positions : list Position;
  closed_positions : list Position;
  fills : list Fill;
  rng_index : nat
}.

Definition init_state (cfg : BacktestConfig) : BacktestState :=
  {| capital := initial_capital cfg; positions := []; closed_positions := [];
     fills := []; rng_index := 0 |}.

Definition equity (st : BacktestState) : Q := capital st.

Definition get_or {A} (o : option A) (d : A) : A :=
  match o with Some x => x | None => d end.

Definition generate_signals (snap : Snapshot) (gens : list Generator) : list BSignal :=
  fold_right (fun g acc => match g snap with Some s => s :: acc | None => acc end) [] gens.

Definition execute_signal (cfg : BacktestConfig) (fm : FillModel) (rng : Rng)
           (st : BacktestState) (signal : BSignal) (snap : Snapshot) : BacktestState :=
  let max_size := capital st * max_position_pct cfg in
  let size := py_min (sig_max_size signal) max_size in
  if qltb size 10 then st else
  let '(fill, i') := simulate_fill fm rng (rng_index st) (sig_direction signal) size
                                   (get_or (snap_price snap) (1 # 2))
                                   (get_or (snap_depth snap) 1000) (1 # 100) (2 # 100) in
  match fill with
  | None => {| capital := capital st; positions := positions st;
               closed_positions := closed_positions st; fills := fills st;
               rng_index := i' |}
  | Some f =>
    let position := {| pos_market_id := get_or (snap_market_id snap) EmptyString;
                       pos_direction := sig_direction signal;
                       pos_size := filled_size f; pos_entry_price := avg_price f;
                       pos_entry_time := timestamp snap;
                       exit_price := None; exit_time := None |} in
    let cost := filled_size f * avg_price f in
    let cost := if include_fees cfg then cost + filled_size f * fee_per_contract cfg
                else cost in
    {| capital := capital st - cost; positions := positions st ++ [position];
       closed_positions := closed_positions st; fills := fills st ++ [f];
       rng_index := i' |}
  end.

Definition is_settled (snap : Snapshot) (p : Position) : bool :=
  existsb (fun kv => String.eqb (fst kv) (pos_market_id p)) (settled_markets snap).

(** [positions.remove(position)]: the earlier open positions of this market
    were removed by the earlier iterations, so the first open position of the
    market is [position] itself. *)
Fixpoint remove_first_in_market (m : string) (l : list Position) : list Position :=
  match l with
  | [] => []
  | q :: r => if String.eqb (pos_market_id q) m then r else q :: remove_first_in_market m r
  end.

(** One iteration of [for position in self.state.positions[:]]: a settled
    position is paid, closed, and removed from the open list. *)
Definition settle_one (snap : Snapshot) (st : BacktestState) (p : Position)
  : BacktestState :=
  if is_settled snap p then
    let result := dict_get String.eqb (settled_markets snap) (pos_market_id p) EmptyString in
    let won := String.eqb (pos_direction p) result in
    let payout := if won then pos_size p * 1 else 0 in
    let closed := {| pos_market_id := pos_market_id p; pos_direction := pos_direction p;
                     pos_size := pos_size p; pos_entry_price := pos_entry_price p;
                     pos_entry_time := pos_entry_time p;
                     exit_price := Some (if won then 1 else 0);
                     exit_time := Some (timestamp snap) |} in
    {| capital := capital st + payout;
       positions := remove_first_in_market (pos_market_id p) (positions st);
       closed_positions := closed_positions st ++ [closed];
       fills := fills st; rng_index := rng_index st |}
  else st.

Definition check_settlements (snap : Snapshot) (st : BacktestState) : BacktestState :=
  fold_left (settle_one snap) (positions st) st.

(** The [for snapshot in historical_data] loop; returns the final state and
    the equity curve handed to [calculate_metrics]. *)
Fixpoint run_loop (cfg : BacktestConfig) (fm : FillModel) (rng : Rng)
         (gens : list Generator) (snaps : list Snapshot) (st : BacktestState)
         (curve : list (Z * Q)) : BacktestState * list (Z * Q) :=
  match snaps with
  | [] => (st, curve)
  | snap :: rest =>
    let ts := timestamp snap in
    if (ts <? start_date cfg)%Z then run_loop cfg fm rng gens rest st curve
    else if (end_date cfg <? ts)%Z then (st, curve)
    else
      let st := check_settlements snap st in
      let signals := generate_signals snap gens in
      let st := fold_left (fun s sg => execute_signal cfg fm rng s sg snap) signals st in
      run_loop cfg fm rng gens rest st (curve ++ [(ts, equity st)])
  end.

Definition run (cfg : BacktestConfig) (fm : FillModel) (rng : Rng)
           (historical_data : list Snapshot) (gens : list Generator)
  : BacktestState * list (Z * Q) :=
  run_loop cfg fm rng gens historical_data (init_state cfg) [].

(** The [pnl] property of a [Position]: [None] while open. *)
Definition pnl (p : Position) : option Q :=
  match exit_price p with
  | None => None
  | Some x =>
    if String.eqb (pos_direction p) "YES" then Some ((x - pos_entry_price p) * pos_size p)
    else Some ((pos_entry_price p - x) * pos_size p)
  end.

End Simulator.

(** ** backtest/metrics.py *)
Module Metrics.

(** The loop of [calculate_drawdown]; [None] is the [ZeroDivisionError] of
    [(peak - equity) / peak] at a zero peak. *)
Fixpoint drawdown_loop (peak max_dd : Q) (max_duration current_duration : Z)
         (equities : list Q) : option (Q * Z) :=
  match equities with
  | [] => Some (max_dd, max_duration)
  | equity :: rest =>
    if qltb peak equity then drawdown_loop equity max_dd max_duration 0 rest
    else if Qeq_bool peak 0 then None
    else
      let dd := (peak - equity) / peak in
      let current_duration := (current_duration + 1)%Z in
      drawdown_loop peak (py_max max_dd dd) (Z.max max_duration current_duration)
                    current_duration rest
  end.

Definition calculate_drawdown (equities : list Q) : option (Q * Z) :=
  match equities with
  | [] => Some (0, 0%Z)
  | e0 :: _ => drawdown_loop e0 0 0 0 equities
  end.

End Metrics.

(** ** Claim-side definitions and concrete inputs *)
Module ClaimDefs.
Import Aggregator Ranker Fills Simulator.

(** The number of directional signals agreeing with the winning side. *)
Definition agreeing_count (t : Tally) : Z :=
  if qltb (no_score t) (yes_score t) then yes_count t else no_count t.

(** The four rejection conditions as the claim lists them. *)
Definition claimed_rejects (cfg : AggregatorConfig) (sigs : list Signal) : bool :=
  let dl := directional sigs in
  let t := tally cfg dl in
  (Z.of_nat (List.length sigs) <? min_signals cfg)%Z
  || Nat.eqb (List.length dl) 0
  || negb (qltb (no_score t) (yes_score t) || qltb (yes_score t) (no_score t))
  || (require_agreement cfg && qltb (inject_Z (agreeing_count t) / qlen dl)
                                    (min_agreement_ratio cfg)).

Definition cfg_jan : BacktestConfig :=
  {| start_date := 0; end_date := 2592000; initial_capital := 10000;
     max_position_pct := 5 # 100; include_fees := true; fee_per_contract := 1 # 100 |}.

(** A snapshot of market [T1] at time [ts] (seconds into the window). *)
Definition snap_at (ts : Z) : Snapshot :=
  {| timestamp := ts; snap_market_id := Some "T1"; snap_price := Some (1 # 2);
     snap_depth := Some 100; settled_markets := [] |}.

Definition yes_signal (nm : string) (st cf : Q) (feats : list string) : Signal :=
  mk_signal nm YES st cf (Some "M1") feats.

Definition neutral_signal (nm : string) : Signal :=
  mk_signal nm NEUTRAL 1 1 (Some "M1") [].

(** The ranker's [estimated_edge] for an aggregated signal. *)
Definition estimated_edge (agg : AggregatedSignal) : Q :=
  aggregate_score agg * Ranker.max_edge * ((1 # 2) + (1 # 2) * agreement_ratio agg).

(** The expected value as the claim states it, with the win probability
    clamped to [0.05, 0.95]. *)
Definition claimed_expected_value (agg : AggregatedSignal) (entry_price : Q)
           (market : Market) : Q :=
  let p := py_min (95 # 100) (py_max (5 # 100) (entry_price + estimated_edge agg)) in
  p * (1 - entry_price) - (1 - p) * entry_price - get_or (m_spread market) (2 # 100) / 2.

(** An aggregated YES signal of two agreeing signals with a given score. *)
Definition agg_with_score (sc : Q) : AggregatedSignal :=
  {| agg_market_id := Some "M1"; agg_direction := YES; aggregate_score := sc;
     agg_confidence := 1 # 2;
     contributing_signals := [yes_signal "a" 1 1 []; yes_signal "b" 1 1 []];
     weights_used := []; feature_correlations := []; avg_correlation := 0;
     independent_signal_count := 2 |}.

(** [_size_to_fit] as the claim states it: every level's cap minus the
    current exposure at that level, the market level included. *)
Definition claimed_size_to_fit (lim : Portfolio.PortfolioLimits)
           (positions : list Portfolio.PortfolioPosition) (rec : Recommendation) : Z :=
  let available :=
    py_min (py_min (py_min
      (Portfolio.max_total_exposure lim - Portfolio.total_exposure positions)
      (Portfolio.max_per_market lim - Portfolio.market_exposure positions rec))
      (Portfolio.max_per_event lim - Portfolio.event_exposure positions rec))
      (Portfolio.max_per_league lim - Portfolio.league_exposure positions rec) in
  if Qle_bool available 0 || Qle_bool (rec_entry_price rec) 0 then 0%Z
  else py_int (available / rec_entry_price rec).

(** A held NO position of 960 contracts at 0.50 (exposure 480) in market M1. *)
Definition held_position : Portfolio.PortfolioPosition :=
  {| Portfolio.pp_market_id := Some "M1"; Portfolio.pp_event_id := "E1";
     Portfolio.pp_league := "NFL"; Portfolio.pp_direction := "NO";
     Portfolio.pp_size := 960; Portfolio.pp_entry_price := 1 # 2 |}.

(** A YES recommendation for 100 contracts at 0.50 in the same market. *)
Definition proposed_rec : Recommendation :=
  {| rec_market_id := Some "M1"; rec_event_id := "E1"; rec_contract := "YES";
     rec_entry_price := 1 # 2; rec_max_size := 100; rec_expected_value := 5 # 100;
     rec_time_to_resolution := None; rec_contributing_signals := ["a"; "b"];
     rec_risk_flags := []; rec_league := "NFL"; rec_rank_score := 1 # 2;
     rec_confidence := 1 # 2 |}.

(** The ranker's acceptance test, as the claim words it. *)
Definition passes_filters (cfg : RankerConfig) (md : list (string * Market))
           (agg : AggregatedSignal) : bool :=
  Qle_bool (min_ev cfg) (rec_expected_value (evaluated_rec cfg md agg))
  && Qle_bool (min_confidence cfg) (agg_confidence agg).

(** All unordered pairs [(signals[i], signals[j])] with [i < j], in the
    order of the two loops of [compute_pairwise_correlations]. *)
Fixpoint all_pairs (l : list Signal) : list (Signal * Signal) :=
  match l with
  | [] => []
  | a :: r => map (fun b => (a, b)) r ++ all_pairs r
  end.

(** The mean Jaccard overlap over all unordered pairs (0 without pairs). *)
Definition mean_pairwise_overlap (l : list Signal) : Q :=
  match all_pairs l with
  | [] => 0
  | ps => qsum (map (fun p => compute_feature_overlap (fst p) (snd p)) ps) / qlen ps
  end.

(** The dict assignments [correlations[key] = overlap] in execution order. *)
Definition pair_entries (l : list Signal) : Correlations :=
  map (fun p => (pair_key (name (fst p)) (name (snd p)),
                 compute_feature_overlap (fst p) (snd p))) (all_pairs l).

Definition assign (d : Correlations) (e : (string * string) * Q) : Correlations :=
  dict_set key_eqb d (fst e) (snd e).

(** Two signals named [a] with features [{x}] and one named [b] with [{y}]. *)
Definition dup_name_signals : list Signal :=
  [yes_signal "a" 1 1 ["x"]; yes_signal "a" 1 1 ["x"]; yes_signal "b" 1 1 ["y"]].

(** Two signals with the same feature set [{x}]. *)
Definition same_feature_signals : list Signal :=
  [yes_signal "a" 1 1 ["x"]; yes_signal "b" 1 1 ["x"]].

(** The capital invariant of the backtest: positive cash and open positions
    of non-negative size. *)
Definition capital_invariant (st : BacktestState) : Prop :=
  0 < capital st /\ Forall (fun p => 0 <= pos_size p) (positions st).

(** Capital 1000, 100% per position and a 0.01 fee: [max_position_pct *
    (0.99 + fee_per_contract)] is exactly 1. *)
Definition cfg_all_in : BacktestConfig :=
  {| start_date := 0; end_date := 2592000; initial_capital := 1000;
     max_position_pct := 1; include_fees := true; fee_per_contract := 1 # 100 |}.

(** A snapshot quoting 0.99 with depth 2000. *)
Definition snap_high : Snapshot :=
  {| timestamp := 3600; snap_market_id := Some "T1"; snap_price := Some (99 # 100);
     snap_depth := Some 2000; settled_markets := [] |}.

Definition gen_yes_1000 : Generator :=
  fun _ => Some {| sig_direction := "YES"; sig_max_size := 1000 |}.

End ClaimDefs.

(** ** Statement helpers for the further properties *)
Module ExtraDefs.
Import Fills Simulator.

(** The closed position [_check_settlements] appends for an open position
    [p] of a settled market: the exit price is 1.0 on a win and 0.0 otherwise. *)
Definition closed_record (snap : Snapshot) (p : Position) : Position :=
  let result := dict_get String.eqb (settled_markets snap) (pos_market_id p) EmptyString in
  let won := String.eqb (pos_direction p) result in
  {| pos_market_id := pos_market_id p; pos_direction := pos_direction p;
     pos_size := pos_size p; pos_entry_price := pos_entry_price p;
     pos_entry_time := pos_entry_time p;
     exit_price := Some (if won then 1 else 0);
     exit_time := Some (timestamp snap) |}.

(** What a closed position paid out when it settled: its size times its exit price. *)
Definition settled_value (p : Position) : Q := pos_size p * get_or (exit_price p) 0.

(** The cost [_execute_signal] deducts for a fill. *)
Definition fill_cost (cfg : BacktestConfig) (f : Fill) : Q :=
  let cost := filled_size f * avg_price f in
  if include_fees cfg then cost + filled_size f * fee_per_contract cfg else cost.

(** An open position whose market has not settled. *)
Definition unsettled (snap : Snapshot) (p : Position) : bool := negb (is_settled snap p).

(** The ledger of a backtest state: capital is the initial capital minus the
    cost of every fill plus the value of every closed position, and every fill
    has one open or closed position. *)
Definition ledger (cfg : BacktestConfig) (st : BacktestState) : Prop :=
  capital st == initial_capital cfg - qsum (map (fill_cost cfg) (fills st))
                + qsum (map settled_value (closed_positions st))
  /\ (List.length (positions st) + List.length (closed_positions st)
      = List.length (fills st))%nat.

(** [self.weights.get(name, self.default_weight)] of [aggregate]. *)
Definition agg_weight (cfg : Aggregator.AggregatorConfig) (nm : string) : Q :=
  dict_get String.eqb (Aggregator.weights cfg) nm Aggregator.default_weight.

(** A YES signal, the test of the tally loop of [aggregate]. *)
Definition is_yes (s : Signals.Signal) : bool :=
  Signals.dir_eqb (Signals.direction s) Signals.YES.

(** The fields of a recommendation that [adjust_for_correlation] never touches. *)
Definition rec_identity (r : Ranker.Recommendation) :=
  (Ranker.rec_market_id r, Ranker.rec_event_id r, Ranker.rec_contract r, Ranker.rec_entry_price r,
   Ranker.rec_expected_value r, Ranker.rec_time_to_resolution r,
   Ranker.rec_contributing_signals r, Ranker.rec_league r, Ranker.rec_rank_score r,
   Ranker.rec_confidence r).


(** An open NO position of 100 contracts at 0.50 in market [T1], and a snapshot
    settling [T1] on NO. *)
Definition no_position : Simulator.Position :=
  {| Simulator.pos_market_id := "T1"; Simulator.pos_direction := "NO";
     Simulator.pos_size := 100; Simulator.pos_entry_price := 1 # 2;
     Simulator.pos_entry_time := 3600; Simulator.exit_price := None;
     Simulator.exit_time := None |}.

Definition no_settles : Simulator.Snapshot :=
  {| Simulator.timestamp := 7200; Simulator.snap_market_id := Some "T1";
     Simulator.snap_price := None; Simulator.snap_depth := None;
     Simulator.settled_markets := [("T1", "NO")] |}.

End ExtraDefs.

(** * Properties *)

(** ** Helper lemmas on the Python numeric helpers *)

Lemma Qle_bool_false (a b : Q) : Qle_bool a b = false -> b < a.
Proof.
  intro H. apply Qnot_le_lt. intro H'. apply Qle_bool_iff in H'. congruence.
Qed.

Ltac qbool :=
  repeat match goal with
  | |- context [Qle_bool ?a ?b] =>
      let E := fresh "E" in
      destruct (Qle_bool a b) eqn:E;
      [apply Qle_bool_iff in E | apply Qle_bool_false in E]
  | H : context [Qle_bool ?a ?b] |- _ =>
      let E := fresh "E" in
      destruct (Qle_bool a b) eqn:E;
      [apply Qle_bool_iff in E | apply Qle_bool_false in E]
  end.

Lemma py_min_le_l (a b : Q) : py_min a b <= a.
Proof. unfold py_min; qbool; lra. Qed.

Lemma py_min_le_r (a b : Q) : py_min a b <= b.
Proof. unfold py_min; qbool; lra. Qed.

Lemma py_max_ge_l (a b : Q) : a <= py_max a b.
Proof. unfold py_max; qbool; lra. Qed.

Lemma py_max_ge_r (a b : Q) : b <= py_max a b.
Proof. unfold py_max; qbool; lra. Qed.

Lemma qltb_true (a b : Q) : qltb a b = true <-> a < b.
Proof.
  unfold qltb. destruct (Qle_bool b a) eqn:E; simpl.
  - apply Qle_bool_iff in E. split; [discriminate | intro; lra].
  - apply Qle_bool_false in E. split; [intro; lra | reflexivity].
Qed.

Lemma qltb_false (a b : Q) : qltb a b = false <-> b <= a.
Proof.
  unfold qltb. destruct (Qle_bool b a) eqn:E; simpl.
  - apply Qle_bool_iff in E. split; [intro; exact E | reflexivity].
  - apply Qle_bool_false in E. split; [discriminate | intro; lra].
Qed.

(** For a non-negative argument [int()] is the floor. *)
Lemma py_int_nonneg (x : Q) : 0 <= x -> py_int x = Qfloor x.
Proof. intro H. unfold py_int. qbool; [reflexivity | lra]. Qed.

(** A positive truncation never exceeds its argument. *)
Lemma py_int_pos_le (x : Q) : (0 < py_int x)%Z -> inject_Z (py_int x) <= x.
Proof.
  unfold py_int. qbool; intro H.
  - apply Qfloor_le.
  - exfalso. assert (Qfloor 0 <= Qfloor (- x))%Z by (apply Qfloor_resp_le; lra).
    change (Qfloor 0) with 0%Z in H0. lia.
Qed.

(** ** C1 *)
Module LookAheadProofs.
Import Fills Simulator ClaimDefs.

(** C1 (code_bug): [BacktestSimulator.run] has no chronological check.  Fed a
    snapshot at t+2h and then one at t+1h, it processes both and records
    equity for each, in the order received, instead of raising. *)
Theorem run_replays_out_of_order (rng : Rng) :
  snd (run cfg_jan default_fill_model rng
           [snap_at (345600 + 7200); snap_at (345600 + 3600)] [])
  = [(352800%Z, 10000); (349200%Z, 10000)].
Proof. reflexivity. Qed.

End LookAheadProofs.

(** ** C2 *)
Module AggregatorRejectProofs.
Import Aggregator ClaimDefs.

(** C2 (counterexample): with the default configuration, one YES signal and
    one NEUTRAL signal pass all four listed conditions (two signals, not all
    NEUTRAL, YES strictly ahead, full agreement), yet [aggregate] returns
    [None]: the directional count is also checked against [min_signals]. *)
Lemma aggregate_rejects_with_neutral :
  claimed_rejects default_config [yes_signal "a" 1 1 ["x"]; neutral_signal "b"] = false
  /\ aggregate default_config [yes_signal "a" 1 1 ["x"]; neutral_signal "b"] = None.
Proof. split; vm_compute; reflexivity. Qed.

(** C2 (amended): [aggregate] returns [None] exactly when there are fewer than
    [min_signals] signals, no directional signal, fewer than [min_signals]
    directional signals, equal YES and NO weighted scores, or, with
    [require_agreement], an agreement ratio below [min_agreement_ratio]. *)
Theorem aggregate_none_iff (cfg : AggregatorConfig) (sigs : list Signal) :
  let dl := directional sigs in
  let t := tally cfg dl in
  aggregate cfg sigs = None <->
  (Z.of_nat (List.length sigs) < min_signals cfg)%Z
  \/ dl = []
  \/ (Z.of_nat (List.length dl) < min_signals cfg)%Z
  \/ yes_score t == no_score t
  \/ (require_agreement cfg = true
      /\ inject_Z (agreeing_count t) / qlen dl < min_agreement_ratio cfg).
Proof.
  cbv zeta. unfold aggregate.
  destruct (Z.of_nat (List.length sigs) <? min_signals cfg)%Z eqn:E1.
  { apply Z.ltb_lt in E1. split; [intros _; left; exact E1 | reflexivity]. }
  apply Z.ltb_ge in E1.
  destruct (directional sigs) as [|d0 rest] eqn:Edl.
  { split; [intros _; right; left; reflexivity | reflexivity]. }
  destruct (Z.of_nat (List.length (d0 :: rest)) <? min_signals cfg)%Z eqn:E2.
  { apply Z.ltb_lt in E2. split; [intros _; right; right; left; exact E2 | reflexivity]. }
  apply Z.ltb_ge in E2.
  unfold agreeing_count, pick_direction.
  destruct (qltb (no_score (tally cfg (d0 :: rest))) (yes_score (tally cfg (d0 :: rest))))
    eqn:E3;
  [| destruct (qltb (yes_score (tally cfg (d0 :: rest))) (no_score (tally cfg (d0 :: rest))))
       eqn:E4].
  - apply qltb_true in E3.
    destruct (require_agreement cfg && qltb _ _) eqn:E5.
    + apply andb_true_iff in E5. destruct E5 as [E5 E6]. apply qltb_true in E6.
      split; [intros _; right; right; right; right; auto | reflexivity].
    + split; [discriminate |].
      intros [H|[H|[H|[H|[H1 H2]]]]]; try lia; try discriminate; try lra.
      rewrite H1 in E5. simpl in E5. apply qltb_false in E5. lra.
  - apply qltb_false in E3. apply qltb_true in E4.
    destruct (require_agreement cfg && qltb _ _) eqn:E5.
    + apply andb_true_iff in E5. destruct E5 as [E5 E6]. apply qltb_true in E6.
      split; [intros _; right; right; right; right; auto | reflexivity].
    + split; [discriminate |].
      intros [H|[H|[H|[H|[H1 H2]]]]]; try lia; try discriminate; try lra.
      rewrite H1 in E5. simpl in E5. apply qltb_false in E5. lra.
  - apply qltb_false in E3. apply qltb_false in E4.
    split; [intros _; right; right; right; left; lra | reflexivity].
Qed.

Lemma aggregate_none_iff_witness :
  aggregate default_config [yes_signal "a" 1 1 ["x"]; neutral_signal "b"] = None.
Proof.
  apply (proj2 (aggregate_none_iff default_config
                  [yes_signal "a" 1 1 ["x"]; neutral_signal "b"])).
  right; right; left. vm_compute. reflexivity.
Defined.

End AggregatorRejectProofs.

(** ** C3 and C4 *)
Module ExpectedValueProofs.
Import Aggregator Ranker ClaimDefs.

Lemma qlen_nonneg {A} (l : list A) : 0 <= qlen l.
Proof. unfold qlen. change 0 with (inject_Z 0). rewrite <- Zle_Qle. lia. Qed.

Lemma agreement_ratio_nonneg (a : AggregatedSignal) : 0 <= agreement_ratio a.
Proof.
  unfold agreement_ratio. destruct (contributing_signals a) as [|s r]; [lra |].
  unfold Qdiv. apply Qmult_le_0_compat; [apply qlen_nonneg |].
  apply Qinv_le_0_compat, qlen_nonneg.
Qed.

(** The gross EV of a binary contract is [win_prob - entry_price]. *)
Lemma calculate_expected_value_eq (agg : AggregatedSignal) (e : Q) (m : Market) :
  calculate_expected_value agg e m
  == py_min (95 # 100) (e + estimated_edge agg) - e - (1 # 2) * get_or (m_spread m) (2 # 100).
Proof. unfold calculate_expected_value, estimated_edge. cbv zeta. field. Qed.

(** C3 (code_bug): at entry price 0.01 and aggregate score 0.1 with full
    agreement the code's win probability is 0.02, below 0.05: it is clamped
    only from above, so the EV is 0 where the stated formula gives 0.03. *)
Theorem ev_win_prob_not_floored :
  py_min (95 # 100) ((1 # 100) + estimated_edge (agg_with_score (1 # 10))) == 2 # 100
  /\ calculate_expected_value (agg_with_score (1 # 10)) (1 # 100) empty_market == 0
  /\ claimed_expected_value (agg_with_score (1 # 10)) (1 # 100) empty_market == 3 # 100.
Proof. vm_compute. repeat split; reflexivity. Qed.

(** C4 (counterexample): at entry price 0.9 and full agreement, scores 0.6 and
    0.8 both push the win probability past the 0.95 cap, so the EVs are
    equal: EV is not strictly increasing in the score. *)
Lemma ev_not_strict_in_score :
  ~ (forall (a1 a2 : AggregatedSignal) (e : Q) (m : Market),
        agreement_ratio a1 == agreement_ratio a2 ->
        aggregate_score a1 < aggregate_score a2 ->
        calculate_expected_value a1 e m < calculate_expected_value a2 e m).
Proof.
  intro H.
  assert (Hr : agreement_ratio (agg_with_score (6 # 10))
               == agreement_ratio (agg_with_score (8 # 10)))
    by (vm_compute; reflexivity).
  assert (Hs : aggregate_score (agg_with_score (6 # 10))
               < aggregate_score (agg_with_score (8 # 10)))
    by (vm_compute; reflexivity).
  pose proof (H _ _ (9 # 10) empty_market Hr Hs) as Hlt.
  assert (Heq : calculate_expected_value (agg_with_score (6 # 10)) (9 # 10) empty_market
                == calculate_expected_value (agg_with_score (8 # 10)) (9 # 10) empty_market)
    by (vm_compute; reflexivity).
  lra.
Qed.

(** C4 (amended): at a fixed agreement ratio a larger aggregate score never
    lowers the EV and strictly raises it while [entry_price + estimated_edge]
    stays below the 0.95 cap, while once [entry_price + estimated_edge]
    reaches the cap the win probability is 0.95 for both scores and the EV
    stays flat; a larger spread strictly lowers the EV. *)
Theorem ev_monotone (a1 a2 : AggregatedSignal) (e : Q) (m m' : Market) :
  agreement_ratio a1 == agreement_ratio a2 ->
  aggregate_score a1 < aggregate_score a2 ->
  get_or (m_spread m) (2 # 100) < get_or (m_spread m') (2 # 100) ->
  calculate_expected_value a1 e m <= calculate_expected_value a2 e m
  /\ (e + estimated_edge a2 < 95 # 100 ->
      calculate_expected_value a1 e m < calculate_expected_value a2 e m)
  /\ calculate_expected_value a1 e m' < calculate_expected_value a1 e m
  /\ (95 # 100 <= e + estimated_edge a1 ->
      calculate_expected_value a1 e m == calculate_expected_value a2 e m).
Proof.
  intros Hr Hs Hsp.
  assert (Hk : 0 < Ranker.max_edge * ((1 # 2) + (1 # 2) * agreement_ratio a2)).
  { pose proof (agreement_ratio_nonneg a2). unfold Ranker.max_edge.
    apply Qmult_lt_0_compat; lra. }
  assert (He : estimated_edge a1 < estimated_edge a2).
  { unfold estimated_edge. rewrite Hr.
    rewrite <- !Qmult_assoc. apply Qmult_lt_r; assumption. }
  split; [| split; [| split]].
  - rewrite !calculate_expected_value_eq. unfold py_min. qbool; lra.
  - intro Hcap. rewrite !calculate_expected_value_eq. unfold py_min. qbool; lra.
  - rewrite !calculate_expected_value_eq. lra.
  - intro Hcap. rewrite !calculate_expected_value_eq. unfold py_min.
    assert (H1 : Qle_bool (95 # 100) (e + estimated_edge a1) = true)
      by (apply Qle_bool_iff; exact Hcap).
    assert (H2 : Qle_bool (95 # 100) (e + estimated_edge a2) = true)
      by (apply Qle_bool_iff; lra).
    rewrite H1, H2. reflexivity.
Qed.

Lemma ev_monotone_witness :
  calculate_expected_value (agg_with_score (5 # 10)) (1 # 2) empty_market
  < calculate_expected_value (agg_with_score (6 # 10)) (1 # 2) empty_market.
Proof.
  apply (ev_monotone (agg_with_score (5 # 10)) (agg_with_score (6 # 10)) (1 # 2)
           empty_market (let m := empty_market in
                         {| m_yes_ask := None; m_no_ask := None; m_spread := Some (4 # 100);
                            m_event_id := None; m_time_to_resolution := None;
                            m_league := None; m_liquidity_score := None;
                            m_time_to_kickoff := None; m_available_depth := None |}));
    vm_compute; reflexivity.
Defined.

End ExpectedValueProofs.

(** ** C5 and C9 *)
Module SizingProofs.
Import Sizing.

(** C5 (counterexample): at confidence 0 the derived win probability equals
    the entry price 0.5, yet [calculate] returns 10, not 0; and at confidence 1
    and entry price 0.3, Kelly fraction 1.0 gives 142 where 0.25 gives 35,
    not a factor of 4. *)
Lemma calculate_no_edge_not_zero :
  py_min (95 # 100) (py_max (5 # 100) ((1 # 2) + 0 * max_edge)) == 1 # 2
  /\ calculate default_params 0 (1 # 2) 1 None None None = 10%Z
  /\ calculate (with_kelly_fraction default_params 1) 1 (3 # 10) 1 None None None = 142%Z
  /\ calculate (with_kelly_fraction default_params (1 # 4)) 1 (3 # 10) 1 None None None
     = 35%Z.
Proof. vm_compute. repeat split; reflexivity. Qed.

(** C5 (amended): the Kelly size [_kelly_size] is 0 whenever the win
    probability is at most the entry price, and Kelly fraction 1.0 gives
    exactly 4 times the size of Kelly fraction 0.25. *)
Theorem kelly_size_no_edge_and_scaling (p : SizingParams) (wp e : Q) (br : option Q) :
  (wp <= e -> kelly_size p wp e br == 0)
  /\ kelly_size (with_kelly_fraction p 1) wp e br
     == 4 * kelly_size (with_kelly_fraction p (1 # 4)) wp e br.
Proof.
  split.
  - intro Hle. unfold kelly_size. cbv zeta.
    destruct (Qle_bool wp 0 || Qle_bool 1 wp) eqn:Ew; [reflexivity |].
    destruct (Qle_bool e 0 || Qle_bool 1 e) eqn:Ee; [reflexivity |].
    apply orb_false_iff in Ew, Ee.
    destruct Ew as [Ew1 Ew2], Ee as [Ee1 Ee2].
    apply Qle_bool_false in Ew1, Ew2, Ee1, Ee2.
    assert (Hk : ((1 - e) / e * wp - (1 - wp)) / ((1 - e) / e) == (wp - e) / (1 - e)).
    { field. split; intro; lra. }
    assert (Hinv : 0 < / (1 - e)) by (apply Qinv_lt_0_compat; lra).
    assert (Hneg : (wp - e) / (1 - e) <= 0).
    { unfold Qdiv. nra. }
    destruct (Qle_bool (((1 - e) / e * wp - (1 - wp)) / ((1 - e) / e)) 0) eqn:Ek;
      [reflexivity |].
    apply Qle_bool_false in Ek. lra.
  - unfold kelly_size. cbv zeta. cbn [kelly_fraction base_size with_kelly_fraction].
    destruct (Qle_bool wp 0 || Qle_bool 1 wp); [reflexivity |].
    destruct (Qle_bool e 0 || Qle_bool 1 e); [reflexivity |].
    set (K := ((1 - e) / e * wp - (1 - wp)) / ((1 - e) / e)).
    set (B := match br with Some b => b | None => base_size p * 10 end).
    destruct (Qle_bool K 0); [reflexivity |].
    assert (H4 : B * (K * (1 # 4)) == (1 # 4) * (B * (K * 1))) by ring.
    unfold py_max. qbool; lra.
Qed.

Lemma kelly_size_no_edge_and_scaling_witness :
  kelly_size default_params (1 # 2) (1 # 2) (Some 1000) == 0.
Proof.
  apply (proj1 (kelly_size_no_edge_and_scaling default_params (1 # 2) (1 # 2)
                  (Some 1000))).
  vm_compute. discriminate.
Defined.

Lemma clamp_int_bounds (lo hi x : Q) (m : Z) :
  lo == inject_Z m -> (0 <= m)%Z -> inject_Z m <= hi ->
  (m <= py_int (py_max lo (py_min hi x)))%Z
  /\ inject_Z (py_int (py_max lo (py_min hi x))) <= hi.
Proof.
  intros Hlo Hm Hhi.
  assert (Hs1 : inject_Z m <= py_max lo (py_min hi x)).
  { pose proof (py_max_ge_l lo (py_min hi x)). lra. }
  assert (Hs2 : py_max lo (py_min hi x) <= hi).
  { pose proof (py_min_le_l hi x). unfold py_max. qbool; lra. }
  assert (H0 : 0 <= inject_Z m) by (change 0 with (inject_Z 0); rewrite <- Zle_Qle; lia).
  rewrite py_int_nonneg by lra.
  split.
  - rewrite <- (Qfloor_Z m). apply Qfloor_resp_le. exact Hs1.
  - pose proof (Qfloor_le (py_max lo (py_min hi x))). lra.
Qed.

(** C9: with an integral, non-negative [min_size] not above [max_size],
    [calculate] returns a size in [[min_size, max_size]] for every confidence,
    entry price, liquidity, time to resolution, depth and bankroll; so with a
    positive [min_size] (the default is 10) it never returns 0. *)
Theorem calculate_within_bounds (p : SizingParams) (m : Z) (conf e liq : Q)
        (ttr dep br : option Q) :
  min_size p == inject_Z m -> (0 <= m)%Z -> inject_Z m <= max_size p ->
  (m <= calculate p conf e liq ttr dep br)%Z
  /\ inject_Z (calculate p conf e liq ttr dep br) <= max_size p
  /\ ((0 < m)%Z -> calculate p conf e liq ttr dep br <> 0%Z).
Proof.
  intros Hlo Hm Hhi.
  assert (H : (m <= calculate p conf e liq ttr dep br)%Z
              /\ inject_Z (calculate p conf e liq ttr dep br) <= max_size p).
  { unfold calculate. cbv zeta. apply clamp_int_bounds; assumption. }
  destruct H as [H1 H2]. split; [exact H1 | split; [exact H2 | lia]].
Qed.

Lemma calculate_within_bounds_witness :
  (10 <= calculate default_params 0%Q (1 # 2) 0%Q None (Some 0%Q) None)%Z.
Proof.
  apply (calculate_within_bounds default_params 10 0 (1 # 2) 0 None (Some 0) None);
    vm_compute; try reflexivity; try discriminate.
Defined.

End SizingProofs.

(** ** C6 *)
Module PortfolioProofs.
Import Ranker Portfolio ClaimDefs.

(** C6 (code_bug): a 100-contract recommendation at 0.50 in a market already
    holding 480 of exposure breaks the 500 market cap.  [_size_to_fit] uses the
    whole market cap (500) instead of the market's headroom (20), so it
    resizes to 1000 contracts where the four headrooms give 40, and
    [adjust_for_correlation] keeps the recommendation at 1000 contracts. *)
Theorem size_to_fit_ignores_market_exposure :
  fst (check_limits default_limits [held_position] proposed_rec) = false
  /\ size_to_fit default_limits [held_position] proposed_rec = 1000%Z
  /\ claimed_size_to_fit default_limits [held_position] proposed_rec = 40%Z
  /\ map rec_max_size (adjust_for_correlation default_limits [held_position] [proposed_rec])
     = [1000%Z].
Proof. vm_compute. repeat split; reflexivity. Qed.

End PortfolioProofs.

(** ** C7 *)
Module RankerProofs.
Import Aggregator Ranker ClaimDefs.

Section SortLemmas.
Context {A : Type} (key : A -> Q).

Lemma insert_by_perm (x : A) (l : list A) : Permutation (insert_by key x l) (x :: l).
Proof.
  induction l as [|y r IH]; simpl; [auto |].
  destruct (Qle_bool (key x) (key y)); [auto |].
  eapply perm_trans; [apply perm_skip, IH | apply perm_swap].
Qed.

Lemma sort_by_key_perm (l : list A) : Permutation (sort_by_key key l) l.
Proof.
  induction l as [|x r IH]; simpl; [auto |].
  eapply perm_trans; [apply insert_by_perm | auto].
Qed.

Lemma insert_by_sorted (x : A) (l : list A) :
  Sorted (fun a b => key a <= key b) l ->
  Sorted (fun a b => key a <= key b) (insert_by key x l).
Proof.
  induction l as [|y r IH]; intro Hs; simpl.
  - constructor; auto.
  - destruct (Qle_bool (key x) (key y)) eqn:E.
    + apply Qle_bool_iff in E. constructor; [exact Hs | constructor; exact E].
    + apply Qle_bool_false in E. inversion Hs as [|? ? Hr Hhd]; subst.
      constructor; [apply IH; exact Hr |].
      destruct r as [|z r']; simpl.
      * constructor. lra.
      * destruct (Qle_bool (key x) (key z)); constructor; [lra |].
        inversion Hhd; assumption.
Qed.

Lemma sort_by_key_sorted (l : list A) :
  Sorted (fun a b => key a <= key b) (sort_by_key key l).
Proof. induction l; simpl; [constructor | apply insert_by_sorted; auto]. Qed.
End SortLemmas.

Lemma sorted_mono {A} (R R' : A -> A -> Prop) (l : list A) :
  (forall a b, R a b -> R' a b) -> Sorted R l -> Sorted R' l.
Proof.
  intros HR Hs. induction Hs as [|x l Hs IH Hhd]; constructor; [exact IH |].
  destruct Hhd; constructor; auto.
Qed.

Lemma sort_desc_sorted {A} (rank : A -> Q) (l : list A) :
  Sorted (fun a b => rank b <= rank a) (sort_by_key (fun x => - rank x) l).
Proof.
  eapply sorted_mono; [| apply sort_by_key_sorted]. cbv beta. intros a b H. lra.
Qed.

Lemma reasons_nil_iff (cfg : RankerConfig) (md : list (string * Market))
      (agg : AggregatedSignal) :
  evaluated_reasons cfg md agg = [] <-> passes_filters cfg md agg = true.
Proof.
  unfold evaluated_reasons, rejection_reasons_for, passes_filters.
  remember (rec_expected_value (evaluated_rec cfg md agg)) as ev eqn:Hev.
  clear Hev.
  destruct (qltb ev (min_ev cfg)) eqn:E1;
  destruct (qltb (agg_confidence agg) (min_confidence cfg)) eqn:E2; simpl;
  try (split; [discriminate |]).
  - apply qltb_true in E1. qbool; simpl; intro H; try discriminate; lra.
  - apply qltb_true in E1. qbool; simpl; intro H; try discriminate; lra.
  - apply qltb_true in E2. qbool; simpl; intro H; try discriminate; lra.
  - apply qltb_false in E1, E2. qbool; simpl; split; intro; try reflexivity; lra.
Qed.

Lemma rank_all_fold (cfg : RankerConfig) (md : list (string * Market))
      (aggs : list AggregatedSignal) acc1 acc2 :
  fold_left (rank_all_step cfg md) aggs (acc1, acc2)
  = (acc1 ++ map (evaluated_rec cfg md) (filter (passes_filters cfg md) aggs),
     acc2 ++ map (evaluated_candidate cfg md)
                 (filter (fun a => negb (passes_filters cfg md a)) aggs)).
Proof.
  revert acc1 acc2. induction aggs as [|a r IH]; intros acc1 acc2; simpl.
  - rewrite !app_nil_r. reflexivity.
  - destruct (evaluated_reasons cfg md a) eqn:E.
    + assert (Hp : passes_filters cfg md a = true) by (apply reasons_nil_iff; exact E).
      rewrite Hp, IH. simpl. rewrite <- app_assoc. reflexivity.
    + assert (Hp : passes_filters cfg md a = false).
      { destruct (passes_filters cfg md a) eqn:Ep; [| reflexivity].
        apply reasons_nil_iff in Ep. congruence. }
      rewrite Hp, IH. simpl. rewrite <- app_assoc. reflexivity.
Qed.

(** C7: [rank_all] sends exactly the candidates with EV >= [min_ev] and
    confidence >= [min_confidence] to the recommendations, sorted by
    descending rank score and cut to [max_recommendations]; every other
    candidate goes to the watchlist with a non-empty list of rejection
    reasons, sorted by descending rank score and not cut; and
    [is_recommended] holds iff the rejection reasons are empty. *)
Theorem rank_all_partition (cfg : RankerConfig) (aggs : list AggregatedSignal)
        (md : list (string * Market)) :
  (0 <= max_recommendations cfg)%Z ->
  (forall a, passes_filters cfg md a = true <->
             min_ev cfg <= rec_expected_value (evaluated_rec cfg md a)
             /\ min_confidence cfg <= agg_confidence a)
  /\ (exists recs,
        Permutation recs (map (evaluated_rec cfg md) (filter (passes_filters cfg md) aggs))
        /\ Sorted (fun r1 r2 => rec_rank_score r2 <= rec_rank_score r1) recs
        /\ fst (rank_all cfg aggs md) = firstn (Z.to_nat (max_recommendations cfg)) recs)
  /\ Permutation (snd (rank_all cfg aggs md))
                 (map (evaluated_candidate cfg md)
                      (filter (fun a => negb (passes_filters cfg md a)) aggs))
  /\ Sorted (fun c1 c2 => cand_rank_score c2 <= cand_rank_score c1)
            (snd (rank_all cfg aggs md))
  /\ Forall (fun c => rejection_reasons c <> []) (snd (rank_all cfg aggs md))
  /\ (forall c : CandidateOpportunity, is_recommended c = true <-> rejection_reasons c = []).
Proof.
  intro Hmax.
  unfold rank_all. rewrite rank_all_fold. simpl app.
  split; [| split; [| split; [| split; [| split]]]].
  - intro a. unfold passes_filters. rewrite andb_true_iff, !Qle_bool_iff. tauto.
  - eexists. split; [apply sort_by_key_perm |]. split; [apply sort_desc_sorted |].
    simpl. unfold py_take. apply Z.leb_le in Hmax. rewrite Hmax. reflexivity.
  - apply sort_by_key_perm.
  - apply sort_desc_sorted.
  - apply Forall_forall. intros c Hc.
    apply (Permutation_in _ (sort_by_key_perm _ _)) in Hc.
    apply in_map_iff in Hc. destruct Hc as [a [Ha Hin]]. subst c.
    apply filter_In in Hin. destruct Hin as [_ Hn]. simpl.
    intro H. apply reasons_nil_iff in H. rewrite H in Hn. discriminate.
  - intro c. unfold is_recommended.
    destruct (rejection_reasons c); simpl; split; congruence.
Qed.

Lemma rank_all_partition_witness :
  Forall (fun c => rejection_reasons c <> [])
         (snd (rank_all default_ranker [agg_with_score (1 # 10)] [])).
Proof.
  destruct (rank_all_partition default_ranker [agg_with_score (1 # 10)] []
              ltac:(vm_compute; discriminate)) as (_ & _ & _ & _ & HF & _).
  exact HF.
Defined.

End RankerProofs.

(** ** C10 *)
Module CapitalProofs.
Import Fills Simulator ClaimDefs.

(** C10 (counterexample): at the boundary [max_position_pct * (0.99 + fee) = 1]
    a full fill of 1000 contracts at the 0.99 price cap costs 990 + 10, the
    whole capital, which drops to 0. *)
Lemma capital_reaches_zero_at_boundary :
  0 < initial_capital cfg_all_in
  /\ max_position_pct cfg_all_in * ((99 # 100) + fee_per_contract cfg_all_in) <= 1
  /\ capital (fst (run cfg_all_in default_fill_model (fun _ => 1 # 2) [snap_high]
                       [gen_yes_1000])) == 0.
Proof. vm_compute. repeat split; try reflexivity; discriminate. Qed.

Lemma clamp_le_hi (lo hi x : Q) : lo <= hi -> py_max lo (py_min hi x) <= hi.
Proof. intro H. pose proof (py_min_le_l hi x). unfold py_max. qbool; lra. Qed.

Lemma simulate_fill_bounds (fm : FillModel) (rng : Rng) (i : nat) (side : string)
      (size price depth vol spread : Q) (f : Fill) (i' : nat) :
  min_fill_pct fm <= 1 -> (forall n, rng n <= 1) ->
  simulate_fill fm rng i side size price depth vol spread = (Some f, i') ->
  0 < filled_size f /\ filled_size f <= size /\ avg_price f <= 99 # 100.
Proof.
  intros Ha Hr H. unfold simulate_fill in H.
  destruct (Qle_bool size 0 || Qle_bool depth 0) eqn:E0; [discriminate |].
  apply orb_false_iff in E0. destruct E0 as [E1 E2].
  apply Qle_bool_false in E1, E2.
  assert (Hfill : forall fs j,
            (fs, j) = (if qltb depth size then (depth, i)
                       else if qltb (rng i) (partial_fill_prob fm) then
                         (inject_Z (py_int (size * uniform (min_fill_pct fm) 1 (rng (S i)))),
                          S (S i))
                       else (size, S i)) ->
            0 < fs -> fs <= size).
  { intros fs j Hfs Hpos.
    destruct (qltb depth size) eqn:Ed; [| destruct (qltb (rng i) (partial_fill_prob fm))].
    - inversion Hfs; subst. apply qltb_true in Ed. lra.
    - inversion Hfs; subst.
      assert (Hz : (0 < py_int (size * uniform (min_fill_pct fm) 1 (rng (S i))))%Z).
      { destruct (py_int (size * uniform (min_fill_pct fm) 1 (rng (S i)))) eqn:Ez;
          [| lia |]; unfold Qlt in Hpos; simpl in Hpos; lia. }
      apply py_int_pos_le in Hz.
      assert (Hu : uniform (min_fill_pct fm) 1 (rng (S i)) <= 1).
      { unfold uniform. pose proof (Hr (S i)).
        assert (0 <= (1 - min_fill_pct fm) * (1 - rng (S i)))
          by (apply Qmult_le_0_compat; lra).
        nra. }
      assert (size * uniform (min_fill_pct fm) 1 (rng (S i)) <= size) by nra.
      lra.
    - inversion Hfs; subst. lra. }
  destruct (if qltb depth size then (depth, i)
            else if qltb (rng i) (partial_fill_prob fm) then
              (inject_Z (py_int (size * uniform (min_fill_pct fm) 1 (rng (S i)))), S (S i))
            else (size, S i)) as [fs j] eqn:Efs.
  destruct (Qle_bool fs 0) eqn:Ef; [discriminate |].
  apply Qle_bool_false in Ef.
  injection H as <- _. simpl.
  split; [exact Ef | split].
  - exact (Hfill fs j eq_refl Ef).
  - apply clamp_le_hi. lra.
Qed.

Section Invariant.
Variables (cfg : BacktestConfig) (fm : FillModel) (rng : Rng).
Hypothesis Hpct : max_position_pct cfg * ((99 # 100) + fee_per_contract cfg) < 1.
Hypothesis Hfee : 0 <= fee_per_contract cfg.
Hypothesis Hmin : min_fill_pct fm <= 1.
Hypothesis Hrng : forall n, 0 <= rng n < 1.

Lemma execute_signal_inv (st : BacktestState) (sg : BSignal) (snap : Snapshot) :
  capital_invariant st -> capital_invariant (execute_signal cfg fm rng st sg snap).
Proof.
  intros [Hc Hp]. unfold execute_signal.
  set (sz := py_min (sig_max_size sg) (capital st * max_position_pct cfg)).
  destruct (qltb sz 10) eqn:Es; [split; assumption |].
  apply qltb_false in Es.
  destruct (simulate_fill fm rng (rng_index st) (sig_direction sg) sz
              (get_or (snap_price snap) (1 # 2)) (get_or (snap_depth snap) 1000)
              (1 # 100) (2 # 100)) as [[f|] i'] eqn:Hf;
    [| split; simpl; assumption].
  apply simulate_fill_bounds in Hf;
    [| assumption | intro n; destruct (Hrng n); lra].
  destruct Hf as (Hf1 & Hf2 & Hf3).
  assert (Hsz : sz <= capital st * max_position_pct cfg) by apply py_min_le_r.
  set (C := capital st) in *. set (P := max_position_pct cfg) in *.
  set (F := fee_per_contract cfg) in *.
  set (fs := filled_size f) in *. set (a := avg_price f) in *.
  assert (H1 : 0 <= fs * ((99 # 100) - a)) by (apply Qmult_le_0_compat; lra).
  assert (H2 : 0 <= (C * P - fs) * ((99 # 100) + F)) by (apply Qmult_le_0_compat; lra).
  assert (H3 : 0 < C * (1 - P * ((99 # 100) + F))) by (apply Qmult_lt_0_compat; lra).
  assert (H4 : 0 <= (C * P) * F) by (apply Qmult_le_0_compat; lra).
  split; simpl.
  - destruct (include_fees cfg); lra.
  - apply Forall_app. split; [exact Hp |]. constructor; [simpl; lra | constructor].
Qed.

Lemma execute_all_inv (sigs : list BSignal) (snap : Snapshot) (st : BacktestState) :
  capital_invariant st ->
  capital_invariant (fold_left (fun s sg => execute_signal cfg fm rng s sg snap) sigs st).
Proof.
  revert st. induction sigs as [|sg r IH]; intros st H; simpl; [exact H |].
  apply IH, execute_signal_inv, H.
Qed.

Lemma remove_first_forall (m : string) (l : list Position) (P : Position -> Prop) :
  Forall P l -> Forall P (remove_first_in_market m l).
Proof.
  induction l as [|q r IH]; intro H; simpl; [constructor |].
  inversion H; subst. destruct (String.eqb (pos_market_id q) m); auto.
Qed.

Lemma settle_all_inv (snap : Snapshot) (L : list Position) (st : BacktestState) :
  Forall (fun p => 0 <= pos_size p) L -> capital_invariant st ->
  capital_invariant (fold_left (settle_one snap) L st).
Proof.
  revert st. induction L as [|p r IH]; intros st HL H; simpl; [exact H |].
  inversion HL; subst. apply IH; [assumption |].
  unfold settle_one. destruct (is_settled snap p); [| exact H].
  destruct H as [Hc Hp]. cbv zeta. split; simpl.
  - destruct (String.eqb _ _); lra.
  - apply remove_first_forall, Hp.
Qed.

Lemma run_loop_inv (gens : list Generator) (snaps : list Snapshot)
      (st : BacktestState) (curve : list (Z * Q)) :
  capital_invariant st -> Forall (fun e => 0 < snd e) curve ->
  capital_invariant (fst (run_loop cfg fm rng gens snaps st curve))
  /\ Forall (fun e => 0 < snd e) (snd (run_loop cfg fm rng gens snaps st curve)).
Proof.
  revert st curve. induction snaps as [|snap r IH]; intros st curve H Hc; simpl;
    [split; assumption |].
  destruct (timestamp snap <? start_date cfg)%Z; [apply IH; assumption |].
  destruct (end_date cfg <? timestamp snap)%Z; [split; assumption |].
  assert (Hs : capital_invariant (check_settlements snap st)).
  { unfold check_settlements. apply settle_all_inv; [apply (proj2 H) | exact H]. }
  pose proof (execute_all_inv (generate_signals snap gens) snap _ Hs) as Hx.
  apply IH; [exact Hx |].
  apply Forall_app. split; [exact Hc |]. constructor; [| constructor].
  simpl. unfold equity. apply (proj1 Hx).
Qed.
End Invariant.

(** C10 (amended): with positive initial capital, [max_position_pct * (0.99 +
    fee_per_contract)] strictly below 1, a non-negative fee, a fill model with
    [min_fill_pct <= 1] and draws of [random()] in [0, 1), the capital stays
    strictly positive throughout [run]: at the end and at every recorded
    point of the equity curve. *)
Theorem run_capital_positive (cfg : BacktestConfig) (fm : FillModel) (rng : Rng)
        (snaps : list Snapshot) (gens : list Generator) :
  0 < initial_capital cfg ->
  max_position_pct cfg * ((99 # 100) + fee_per_contract cfg) < 1 ->
  0 <= fee_per_contract cfg ->
  min_fill_pct fm <= 1 ->
  (forall n, 0 <= rng n < 1) ->
  0 < capital (fst (run cfg fm rng snaps gens))
  /\ Forall (fun e => 0 < snd e) (snd (run cfg fm rng snaps gens)).
Proof.
  intros H0 Hpct Hfee Hmin Hrng. unfold run.
  destruct (run_loop_inv cfg fm rng Hpct Hfee Hmin Hrng gens snaps (init_state cfg) []
              ltac:(split; [exact H0 | constructor]) (Forall_nil _)) as [[Hc _] Hcur].
  split; assumption.
Qed.

Lemma run_capital_positive_witness :
  0 < capital (fst (run cfg_jan default_fill_model (fun _ => 1 # 2)
                       [snap_at 3600; snap_at 7200] [gen_yes_1000])).
Proof.
  refine (proj1 (run_capital_positive cfg_jan default_fill_model (fun _ => 1 # 2)
                  [snap_at 3600; snap_at 7200] [gen_yes_1000] _ _ _ _ _)).
  - reflexivity.
  - reflexivity.
  - discriminate.
  - discriminate.
  - intro n. split; [discriminate | reflexivity].
Defined.
End CapitalProofs.

(** ** C8 *)
Module CorrelationProofs.
Import Aggregator ClaimDefs.

(** C8 (counterexample): with two signals both named [a] (features [{x}]) and
    one named [b] (features [{y}]), the three pairs have overlaps 1, 0, 0 and
    mean 1/3; the two [(a, b)] pairs share one dict key, so [avg_correlation]
    is the mean of two values, 1/2. *)
Lemma avg_correlation_collapses_duplicate_names :
  match aggregate default_config dup_name_signals with
  | Some a => avg_correlation a == 1 # 2
              /\ mean_pairwise_overlap (contributing_signals a) == 1 # 3
  | None => False
  end.
Proof. vm_compute. split; reflexivity. Qed.

Lemma qlen_cons {A} (x : A) (l : list A) : qlen (x :: l) == 1 + qlen l.
Proof.
  unfold qlen. simpl List.length. rewrite Nat2Z.inj_succ. unfold Z.succ.
  rewrite inject_Z_plus. simpl. ring.
Qed.

Lemma qlen_pos {A} (l : list A) : l <> [] -> 0 < qlen l.
Proof.
  destruct l as [|x r]; [contradiction |]. intros _. unfold qlen, Qlt. simpl. lia.
Qed.

Lemma qsum_const (c : Q) (vs : list Q) :
  Forall (fun v => v == c) vs -> qsum vs == c * qlen vs.
Proof.
  induction vs as [|v r IH]; intro H; [unfold qlen; simpl; ring |].
  inversion H; subst. rewrite qlen_cons. simpl. rewrite (IH H3), H2. ring.
Qed.

Lemma avg_const (c : Q) (d : Correlations) :
  d <> [] -> Forall (fun e => snd e == c) d -> avg_of_correlations d == c.
Proof.
  intros Hne H. unfold avg_of_correlations.
  assert (Hp := qlen_pos d Hne).
  destruct d as [|e r]; [contradiction |].
  assert (Hs : qsum (map snd (e :: r)) == c * qlen (e :: r)).
  { rewrite qsum_const with (c := c); [| apply Forall_map, H].
    unfold qlen. rewrite length_map. reflexivity. }
  rewrite Hs. field. lra.
Qed.

Lemma fold_assign_map (f : Signal -> (string * string) * Q) (l : list Signal)
      (acc : Correlations) :
  fold_left (fun d x => assign d (f x)) l acc = fold_left assign (map f l) acc.
Proof. revert acc. induction l as [|x r IH]; intro acc; simpl; [reflexivity | apply IH]. Qed.

Lemma outer_loop_as_fold (l : list Signal) (acc : Correlations) :
  outer_loop l acc = fold_left assign (pair_entries l) acc.
Proof.
  revert acc. induction l as [|a r IH]; intro acc; [reflexivity |].
  simpl. rewrite IH. unfold pair_entries. simpl. rewrite map_app, fold_left_app.
  f_equal. unfold inner_loop. rewrite map_map. rewrite <- fold_assign_map. reflexivity.
Qed.

Lemma key_eqb_true (k1 k2 : string * string) : key_eqb k1 k2 = true <-> k1 = k2.
Proof.
  destruct k1 as [a b], k2 as [c d]. unfold key_eqb. simpl.
  rewrite andb_true_iff, !String.eqb_eq. split.
  - intros [-> ->]. reflexivity.
  - intro H. inversion H. auto.
Qed.

Lemma dict_set_fresh (d : Correlations) (k : string * string) (v : Q) :
  ~ In k (map fst d) -> dict_set key_eqb d k v = d ++ [(k, v)].
Proof.
  induction d as [|[k' v'] r IH]; intro H; [reflexivity |].
  simpl in H. simpl. destruct (key_eqb k' k) eqn:E.
  - apply key_eqb_true in E. exfalso. apply H. left. exact E.
  - rewrite IH; [reflexivity | tauto].
Qed.

Lemma fold_assign_fresh (es acc : Correlations) :
  NoDup (map fst es) -> (forall k, In k (map fst es) -> ~ In k (map fst acc)) ->
  fold_left assign es acc = acc ++ es.
Proof.
  revert acc. induction es as [|e r IH]; intros acc Hn Hf; simpl; [rewrite app_nil_r; reflexivity |].
  inversion Hn; subst. unfold assign at 2. rewrite dict_set_fresh; [| apply Hf; left; reflexivity].
  rewrite IH; [destruct e; rewrite <- app_assoc; reflexivity | assumption |].
  intros k Hk. rewrite map_app. simpl. intros Hin. apply in_app_or in Hin.
  destruct Hin as [Hin | [Heq | []]].
  - exact (Hf k (or_intror Hk) Hin).
  - subst. contradiction.
Qed.

Lemma pair_key_cases (x y : string) : pair_key x y = (x, y) \/ pair_key x y = (y, x).
Proof. unfold pair_key. destruct (String.leb x y); auto. Qed.

Lemma pair_key_inj (x y y' : string) : pair_key x y = pair_key x y' -> y = y'.
Proof.
  destruct (pair_key_cases x y) as [H1|H1], (pair_key_cases x y') as [H2|H2];
    rewrite H1, H2; intro H; inversion H; subst; reflexivity.
Qed.

Lemma all_pairs_in (l : list Signal) (p : Signal * Signal) :
  In p (all_pairs l) -> In (fst p) l /\ In (snd p) l.
Proof.
  induction l as [|a r IH]; simpl; [tauto |]. intro H. apply in_app_or in H.
  destruct H as [H | H].
  - apply in_map_iff in H. destruct H as (b & <- & Hb). simpl. auto.
  - destruct (IH H). auto.
Qed.

Lemma pair_entries_keys (l : list Signal) (k : string * string) :
  In k (map fst (pair_entries l)) -> In (fst k) (map name l) /\ In (snd k) (map name l).
Proof.
  unfold pair_entries. rewrite map_map. intro H. apply in_map_iff in H.
  destruct H as (p & <- & Hp). apply all_pairs_in in Hp. destruct Hp as [H1 H2].
  apply (in_map name) in H1, H2. simpl.
  destruct (pair_key_cases (name (fst p)) (name (snd p))) as [E|E]; rewrite E; simpl; auto.
Qed.

Lemma pair_entries_nodup (l : list Signal) :
  NoDup (map name l) -> NoDup (map fst (pair_entries l)).
Proof.
  induction l as [|a r IH]; intro Hn; [constructor |].
  inversion Hn as [|x y Ha Hr]; subst.
  unfold pair_entries. simpl. rewrite map_app, map_app.
  fold (pair_entries r). rewrite !map_map. simpl.
  apply NoDup_app.
  - clear IH Hn. revert Ha Hr. induction r as [|b r' IHr]; intros Ha Hr; simpl; [constructor |].
    simpl in Ha. inversion Hr as [|x y Hb Hr']; subst. constructor.
    + rewrite in_map_iff. intros (b' & Hk & Hb'). apply pair_key_inj in Hk.
      apply Hb. rewrite <- Hk. apply in_map, Hb'.
    + apply IHr; [tauto | exact Hr'].
  - apply IH, Hr.
  - intros k Hk1 Hk2. apply in_map_iff in Hk1. destruct Hk1 as (b & <- & Hb).
    apply pair_entries_keys in Hk2. destruct Hk2 as [H1 H2].
    destruct (pair_key_cases (name a) (name b)) as [E|E]; rewrite E in H1, H2;
      simpl in H1, H2; contradiction.
Qed.

Lemma dict_set_forall (P : Q -> Prop) (d : Correlations) (k : string * string) (v : Q) :
  Forall (fun e => P (snd e)) d -> P v -> Forall (fun e => P (snd e)) (dict_set key_eqb d k v).
Proof.
  induction d as [|[k' v'] r IH]; intros Hd Hv; simpl; [constructor; [exact Hv | constructor] |].
  inversion Hd; subst. destruct (key_eqb k' k); constructor; auto.
Qed.

Lemma fold_assign_forall (P : Q -> Prop) (es acc : Correlations) :
  Forall (fun e => P (snd e)) acc -> Forall (fun e => P (snd e)) es ->
  Forall (fun e => P (snd e)) (fold_left assign es acc).
Proof.
  revert acc. induction es as [|e r IH]; intros acc Ha He; simpl; [exact Ha |].
  inversion He; subst. apply IH; [| assumption]. apply dict_set_forall; assumption.
Qed.

Lemma dict_set_nonempty (d : Correlations) (k : string * string) (v : Q) :
  dict_set key_eqb d k v <> [].
Proof. destruct d as [|[k' v'] r]; simpl; [discriminate | destruct (key_eqb k' k); discriminate]. Qed.

Lemma fold_assign_nonempty (es acc : Correlations) :
  (acc <> [] \/ es <> []) -> fold_left assign es acc <> [].
Proof.
  revert acc. induction es as [|e r IH]; intros acc H; simpl.
  - destruct H; [assumption | contradiction].
  - apply IH. left. apply dict_set_nonempty.
Qed.

Lemma to_set_in (x : string) (l : list string) : In x (to_set l) <-> In x l.
Proof.
  induction l as [|y r IH]; simpl; [tauto |].
  destruct (existsb (String.eqb y) r) eqn:E.
  - apply existsb_exists in E. destruct E as (z & Hz & Ez). apply String.eqb_eq in Ez.
    subst z. rewrite IH. split; [tauto | intros [<- | H]; assumption].
  - simpl. rewrite IH. tauto.
Qed.

Lemma mem_in (x : string) (l : list string) : mem x l = true <-> In x l.
Proof.
  unfold mem. rewrite existsb_exists. split.
  - intros (y & Hy & E). apply String.eqb_eq in E. subst. exact Hy.
  - intro H. exists x. split; [exact H | apply String.eqb_refl].
Qed.

Lemma filter_all_true {A} (f : A -> bool) (l : list A) :
  (forall x, In x l -> f x = true) -> filter f l = l.
Proof.
  induction l as [|x r IH]; intro H; simpl; [reflexivity |].
  rewrite (H x (or_introl eq_refl)), IH; [reflexivity |]. intros y Hy. apply H. right. exact Hy.
Qed.

Lemma filter_all_false {A} (f : A -> bool) (l : list A) :
  (forall x, In x l -> f x = false) -> filter f l = [].
Proof.
  induction l as [|x r IH]; intro H; simpl; [reflexivity |].
  rewrite (H x (or_introl eq_refl)), IH; [reflexivity |]. intros y Hy. apply H. right. exact Hy.
Qed.

Lemma overlap_same_features (s1 s2 : Signal) (fs : list string) :
  fs <> [] ->
  (forall x, In x (features_used s1) <-> In x fs) ->
  (forall x, In x (features_used s2) <-> In x fs) ->
  compute_feature_overlap s1 s2 == 1.
Proof.
  intros Hfs H1 H2. unfold compute_feature_overlap.
  assert (Ha : forall x, In x (to_set (features_used s1)) <-> In x fs)
    by (intro x; rewrite to_set_in; apply H1).
  assert (Hb : forall x, In x (to_set (features_used s2)) <-> In x fs)
    by (intro x; rewrite to_set_in; apply H2).
  remember (to_set (features_used s1)) as fa eqn:Efa; clear Efa.
  remember (to_set (features_used s2)) as fb eqn:Efb; clear Efb.
  assert (Hi : set_inter fa fb = fa).
  { apply filter_all_true. intros x Hx. apply mem_in, Hb, Ha, Hx. }
  assert (Hu : set_union fa fb = fa).
  { unfold set_union. rewrite filter_all_false; [apply app_nil_r |].
    intros x Hx. apply negb_false_iff, mem_in, Ha, Hb, Hx. }
  destruct fs as [|z fs']; [contradiction |].
  destruct fa as [|x fa']; [exfalso; apply (proj2 (Ha z)); left; reflexivity |].
  destruct fb as [|y fb']; [exfalso; apply (proj2 (Hb z)); left; reflexivity |].
  cbv zeta. rewrite Hi, Hu.
  assert (Hp := qlen_pos (x :: fa') ltac:(discriminate)). field. lra.
Qed.

Lemma overlap_disjoint (s1 s2 : Signal) :
  (forall x, In x (features_used s1) -> ~ In x (features_used s2)) ->
  compute_feature_overlap s1 s2 == 0.
Proof.
  intro H. unfold compute_feature_overlap.
  assert (Hi : set_inter (to_set (features_used s1)) (to_set (features_used s2)) = []).
  { apply filter_all_false. intros x Hx.
    destruct (mem x (to_set (features_used s2))) eqn:E; [| reflexivity].
    apply mem_in in E. rewrite to_set_in in E, Hx. exfalso. exact (H x Hx E). }
  remember (to_set (features_used s1)) as fa eqn:Efa; clear Efa.
  remember (to_set (features_used s2)) as fb eqn:Efb; clear Efb.
  destruct fa as [|x fa']; [reflexivity |]. destruct fb as [|y fb']; [reflexivity |].
  cbv zeta. rewrite Hi. destruct (set_union _ _); [reflexivity |].
  unfold Qdiv. apply Qmult_0_l.
Qed.

Lemma aggregate_some_fields (cfg : AggregatorConfig) (sigs : list Signal)
      (a : AggregatedSignal) :
  aggregate cfg sigs = Some a ->
  contributing_signals a = directional sigs /\ directional sigs <> []
  /\ avg_correlation a = avg_of_correlations (compute_pairwise_correlations (directional sigs))
  /\ independent_signal_count a = independent_count (qlen (directional sigs)) (avg_correlation a).
Proof.
  unfold aggregate. intro H.
  destruct (Z.of_nat (List.length sigs) <? min_signals cfg)%Z; [discriminate |].
  destruct (directional sigs) as [|d0 r] eqn:Edl; [discriminate |].
  destruct (Z.of_nat (List.length (d0 :: r)) <? min_signals cfg)%Z; [discriminate |].
  destruct (pick_direction (tally cfg (d0 :: r))) as [[[dir sc] ag]|]; [| discriminate].
  destruct (require_agreement cfg && _); [discriminate |].
  injection H as <-. simpl. repeat split; [discriminate].
Qed.

(** C8 (amended): whenever [aggregate] returns an aggregated signal over the
    [n] directional signals [dl]: [independent_signal_count] is
    [n / (1 + (n - 1) * avg_correlation)]; [avg_correlation] is 0 when
    [n < 2]; it is the mean Jaccard overlap over all unordered pairs when the
    signal names are pairwise distinct (pairs are keyed by names); it is 1,
    with [independent_signal_count] 1, when [n >= 2] and all feature sets are
    one and the same non-empty set; and it is 0, with
    [independent_signal_count] [n], when the feature sets are pairwise
    disjoint. *)
Theorem aggregate_correlation_stats (cfg : AggregatorConfig) (sigs : list Signal)
        (a : AggregatedSignal) :
  aggregate cfg sigs = Some a ->
  let dl := contributing_signals a in
  let n := qlen dl in
  independent_signal_count a == n / (1 + (n - 1) * avg_correlation a)
  /\ ((List.length dl < 2)%nat -> avg_correlation a == 0)
  /\ (NoDup (map name dl) -> avg_correlation a = mean_pairwise_overlap dl)
  /\ (forall fs, fs <> [] ->
        Forall (fun s => forall x, In x (features_used s) <-> In x fs) dl ->
        (2 <= List.length dl)%nat ->
        avg_correlation a == 1 /\ independent_signal_count a == 1)
  /\ (Forall (fun p => forall x, In x (features_used (fst p)) -> ~ In x (features_used (snd p)))
             (all_pairs dl) ->
      avg_correlation a == 0 /\ independent_signal_count a == n).
Proof.
  intro H. apply aggregate_some_fields in H. destruct H as (Hc & Hne & Havg & Hind).
  cbv zeta. rewrite Hc in *.
  remember (directional sigs) as dl eqn:Edl; clear Edl Hc.
  assert (Hn := qlen_pos dl Hne).
  assert (Hind' : independent_signal_count a
                  == qlen dl / (1 + (qlen dl - 1) * avg_correlation a)).
  { rewrite Hind. unfold independent_count.
    destruct (qltb 0 (qlen dl)) eqn:E; [reflexivity |].
    apply qltb_false in E. lra. }
  assert (Hc : compute_pairwise_correlations dl = fold_left assign (pair_entries dl) [])
    by apply outer_loop_as_fold.
  split; [exact Hind' |]. split; [| split; [| split]].
  - intro Hl. rewrite Havg.
    destruct dl as [|x [|y r]]; [reflexivity | reflexivity | simpl in Hl; lia].
  - intro Hnd. rewrite Havg, Hc.
    rewrite fold_assign_fresh; [| apply pair_entries_nodup, Hnd | intros k _ []].
    simpl. unfold avg_of_correlations, mean_pairwise_overlap, pair_entries.
    destruct (all_pairs dl) as [|p ps]; [reflexivity |].
    rewrite map_map. unfold qlen. rewrite length_map. reflexivity.
  - intros fs Hfs Hall H2.
    assert (Ha1 : avg_correlation a == 1).
    { rewrite Havg, Hc. apply avg_const.
      - apply fold_assign_nonempty. right. unfold pair_entries.
        destruct dl as [|x [|y r]]; [simpl in H2; lia | simpl in H2; lia | discriminate].
      - apply (fold_assign_forall (fun v => v == 1)); [constructor |].
        unfold pair_entries. apply Forall_map, Forall_forall.
        intros p Hp. apply all_pairs_in in Hp. destruct Hp as [Hp1 Hp2].
        rewrite Forall_forall in Hall. simpl.
        apply (overlap_same_features _ _ fs Hfs (Hall _ Hp1) (Hall _ Hp2)). }
    split; [exact Ha1 |]. rewrite Hind', Ha1. field. lra.
  - intro Hdis.
    assert (Ha0 : avg_correlation a == 0).
    { rewrite Havg, Hc.
      destruct (fold_left assign (pair_entries dl) []) as [|e r] eqn:Ef; [reflexivity |].
      rewrite <- Ef. apply avg_const; [rewrite Ef; discriminate |].
      apply (fold_assign_forall (fun v => v == 0)); [constructor |].
      unfold pair_entries. apply Forall_map. rewrite Forall_forall in Hdis |- *.
      intros p Hp. simpl. apply overlap_disjoint, Hdis, Hp. }
    split; [exact Ha0 |]. rewrite Hind', Ha0. field.
Qed.

Lemma aggregate_correlation_stats_witness :
  exists a, aggregate default_config same_feature_signals = Some a
            /\ avg_correlation a == 1 /\ independent_signal_count a == 1.
Proof.
  let v := eval vm_compute in (aggregate default_config same_feature_signals) in
  match v with Some ?a0 => exists a0 end.
  assert (E : aggregate default_config same_feature_signals = Some _) by (vm_compute; reflexivity).
  split; [exact E |].
  refine (proj1 (proj2 (proj2 (proj2 (aggregate_correlation_stats _ _ _ E)))) ["x"] _ _ _).
  - discriminate.
  - simpl. repeat (apply Forall_cons; [intro x; simpl; tauto |]). apply Forall_nil.
  - vm_compute. lia.
Defined.

End CorrelationProofs.

(** ** Monotonicity of the Python numeric helpers *)
Module NumericFacts.

Lemma py_min_mono (a b c d : Q) : a <= c -> b <= d -> py_min a b <= py_min c d.
Proof. intros H1 H2. unfold py_min. qbool; lra. Qed.

Lemma py_max_mono (a b c d : Q) : a <= c -> b <= d -> py_max a b <= py_max c d.
Proof. intros H1 H2. unfold py_max. qbool; lra. Qed.

Lemma py_int_mono (x y : Q) : x <= y -> (py_int x <= py_int y)%Z.
Proof.
  intro H. unfold py_int. qbool.
  - apply Qfloor_resp_le, H.
  - lra.
  - assert (Qfloor 0 <= Qfloor (- x))%Z by (apply Qfloor_resp_le; lra).
    assert (Qfloor 0 <= Qfloor y)%Z by (apply Qfloor_resp_le; lra).
    change (Qfloor 0) with 0%Z in *. lia.
  - assert (Qfloor (- y) <= Qfloor (- x))%Z by (apply Qfloor_resp_le; lra). lia.
Qed.

Lemma clamp_bounds (lo hi x : Q) : lo <= hi -> lo <= py_max lo (py_min hi x) <= hi.
Proof. intro H. pose proof (py_min_le_l hi x). unfold py_max. qbool; lra. Qed.

End NumericFacts.

(** ** Extra: backtest/fills.py *)
Module FillProofs.
Import Fills NumericFacts.

Lemma simulate_fill_some_cases (fm : FillModel) (rng : Rng) (i : nat) (side : string)
      (size price depth vol spread : Q) (f : Fill) (i' : nat) :
  simulate_fill fm rng i side size price depth vol spread = (Some f, i') ->
  0 < size /\ 0 < depth /\ requested_size f = size /\ 0 < filled_size f
  /\ slippage f = estimate_slippage (slippage_model fm) (filled_size f) depth vol spread
  /\ avg_price f = py_max (1 # 100) (py_min (99 # 100)
                     (if String.eqb side "YES" then price + slippage f
                      else price - slippage f))
  /\ ((depth < size /\ filled_size f = depth /\ i' = i)
      \/ (size <= depth /\ rng i < partial_fill_prob fm
          /\ filled_size f = inject_Z (py_int (size * uniform (min_fill_pct fm) 1 (rng (S i))))
          /\ i' = S (S i))
      \/ (size <= depth /\ partial_fill_prob fm <= rng i /\ filled_size f = size
          /\ i' = S i)).
Proof.
  intro H. unfold simulate_fill in H.
  destruct (Qle_bool size 0 || Qle_bool depth 0) eqn:E0; [discriminate |].
  apply orb_false_iff in E0. destruct E0 as [E1 E2].
  apply Qle_bool_false in E1, E2.
  destruct (qltb depth size) eqn:Ed;
    [| destruct (qltb (rng i) (partial_fill_prob fm)) eqn:Ep];
    cbv beta iota zeta in H;
    match type of H with
    | (if Qle_bool ?x 0 then _ else _) = _ =>
        destruct (Qle_bool x 0) eqn:Ef; [discriminate |]; apply Qle_bool_false in Ef
    end;
    injection H as <- <-; simpl;
    (split; [exact E1 | split; [exact E2 | split; [reflexivity | split; [exact Ef |
     split; [reflexivity | split; [reflexivity |]]]]]]).
  - left. apply qltb_true in Ed. auto.
  - right; left. apply qltb_false in Ed. apply qltb_true in Ep. auto.
  - right; right. apply qltb_false in Ed. apply qltb_false in Ep. auto.
Qed.

(** A Fill returned by [simulate_fill] records the requested size, fills a
    positive amount within both the requested size and the available depth, at a
    price in [0.01, 0.99], so its [fill_rate] lies in (0, 1]. *)
Theorem simulate_fill_output_bounds (fm : FillModel) (rng : Rng) (i : nat) (side : string)
        (size price depth vol spread : Q) (f : Fill) (i' : nat) :
  min_fill_pct fm <= 1 -> (forall n, rng n <= 1) ->
  simulate_fill fm rng i side size price depth vol spread = (Some f, i') ->
  requested_size f = size /\ 0 < filled_size f /\ filled_size f <= size
  /\ filled_size f <= depth /\ 1 # 100 <= avg_price f <= 99 # 100
  /\ 0 < fill_rate f <= 1.
Proof.
  intros Hm Hr H. apply simulate_fill_some_cases in H.
  destruct H as (Hs & Hd & Hq & Hf & _ & Ha & Hc).
  assert (Hle : filled_size f <= size /\ filled_size f <= depth).
  { destruct Hc as [(H1 & H2 & _) | [(H1 & _ & H2 & _) | (H1 & _ & H2 & _)]].
    - rewrite H2. lra.
    - assert (Hz : (0 < py_int (size * uniform (min_fill_pct fm) 1 (rng (S i))))%Z).
      { rewrite H2 in Hf. unfold Qlt in Hf. simpl in Hf. lia. }
      apply py_int_pos_le in Hz.
      assert (Hu : uniform (min_fill_pct fm) 1 (rng (S i)) <= 1).
      { unfold uniform. pose proof (Hr (S i)).
        assert (0 <= (1 - min_fill_pct fm) * (1 - rng (S i)))
          by (apply Qmult_le_0_compat; lra).
        nra. }
      assert (size * uniform (min_fill_pct fm) 1 (rng (S i)) <= size) by nra.
      rewrite H2. lra.
    - rewrite H2. lra. }
  destruct Hle as [Hl1 Hl2].
  assert (Hp := clamp_bounds (1 # 100) (99 # 100)
                  (if String.eqb side "YES" then price + slippage f else price - slippage f)
                  ltac:(discriminate)).
  rewrite <- Ha in Hp.
  split; [exact Hq | split; [exact Hf | split; [exact Hl1 | split; [exact Hl2 | split; [exact Hp |]]]]].
  unfold fill_rate. rewrite Hq.
  destruct (Qeq_bool size 0) eqn:E; [apply Qeq_bool_iff in E; lra |].
  split.
  - apply Qlt_shift_div_l; lra.
  - apply Qle_shift_div_r; lra.
Qed.

Lemma simulate_fill_output_bounds_witness :
  exists f, simulate_fill default_fill_model (fun _ => 1 # 2) 0 "YES" 100 (1 # 2) 1000
                          (1 # 100) (2 # 100) = (Some f, 1%nat)
            /\ 0 < fill_rate f <= 1.
Proof.
  eexists. split; [vm_compute; reflexivity |].
  refine (proj2 (proj2 (proj2 (proj2 (proj2 (simulate_fill_output_bounds
            default_fill_model (fun _ => 1 # 2) 0 "YES" 100 (1 # 2) 1000 (1 # 100) (2 # 100)
            _ 1%nat _ _ _)))))).
  - vm_compute. discriminate.
  - intro n. vm_compute. discriminate.
  - vm_compute. reflexivity.
Defined.

(** [simulate_fill] returns no fill, and draws no random number, when the size
    or the depth is not positive; when the size exceeds a positive depth it
    fills exactly the depth, again without drawing. *)
Theorem simulate_fill_edges (fm : FillModel) (rng : Rng) (i : nat) (side : string)
        (size price depth vol spread : Q) :
  ((size <= 0 \/ depth <= 0) ->
   simulate_fill fm rng i side size price depth vol spread = (None, i))
  /\ (0 < depth -> depth < size ->
      exists f, simulate_fill fm rng i side size price depth vol spread = (Some f, i)
                /\ filled_size f = depth /\ requested_size f = size).
Proof.
  split.
  - intro H. unfold simulate_fill.
    destruct (Qle_bool size 0 || Qle_bool depth 0) eqn:E; [reflexivity |].
    apply orb_false_iff in E. destruct E as [E1 E2].
    apply Qle_bool_false in E1, E2. lra.
  - intros Hd Hs. unfold simulate_fill.
    destruct (Qle_bool size 0) eqn:E1; [apply Qle_bool_iff in E1; lra |].
    destruct (Qle_bool depth 0) eqn:E2; [apply Qle_bool_iff in E2; lra |].
    simpl orb. cbv iota.
    destruct (qltb depth size) eqn:Ed; [| apply qltb_false in Ed; lra].
    cbv beta iota zeta.
    destruct (Qle_bool depth 0); [discriminate |].
    eexists. split; [reflexivity | split; reflexivity].
Qed.

Lemma simulate_fill_edges_witness :
  simulate_fill default_fill_model (fun _ => 0) 3 "NO" 0 (1 # 2) 100 (1 # 100) (2 # 100)
  = (None, 3%nat).
Proof.
  apply (proj1 (simulate_fill_edges default_fill_model (fun _ => 0) 3 "NO" 0 (1 # 2) 100
                  (1 # 100) (2 # 100))).
  left. vm_compute. discriminate.
Defined.

(** [estimate_slippage] is at least half the spread, and with a non-negative
    size impact factor and volatility multiplier it never decreases as the
    order size grows. *)
Theorem estimate_slippage_floor_mono (m : SlippageModel) (s1 s2 depth vol spread : Q) :
  spread / 2 <= estimate_slippage m s1 depth vol spread
  /\ (0 <= size_impact_factor m -> 0 <= 1 + vol * volatility_factor m -> s1 <= s2 ->
      estimate_slippage m s1 depth vol spread <= estimate_slippage m s2 depth vol spread).
Proof.
  split; [apply py_max_ge_r |].
  intros Hk Hv Hs. unfold estimate_slippage. apply py_max_mono; [| lra].
  destruct (qltb 0 depth) eqn:Ed.
  - apply qltb_true in Ed.
    assert (H1 : s1 / depth <= s2 / depth).
    { unfold Qdiv. apply Qmult_le_compat_r; [exact Hs |].
      apply Qinv_le_0_compat. lra. }
    assert (H2 : size_impact_factor m * (s1 / depth) <= size_impact_factor m * (s2 / depth)).
    { rewrite !(Qmult_comm (size_impact_factor m)). apply Qmult_le_compat_r; assumption. }
    apply Qmult_le_compat_r; [lra | exact Hv].
  - lra.
Qed.

Lemma estimate_slippage_floor_mono_witness :
  estimate_slippage default_slippage 10 1000 (1 # 100) (2 # 100)
  <= estimate_slippage default_slippage 500 1000 (1 # 100) (2 # 100).
Proof.
  apply (proj2 (estimate_slippage_floor_mono default_slippage 10 500 1000 (1 # 100) (2 # 100)));
    vm_compute; discriminate.
Defined.

(** With a non-negative spread, a YES fill is never priced below the quoted
    price clamped to [0.01, 0.99], and a NO fill never above it. *)
Theorem simulate_fill_side_price (fm : FillModel) (rng : Rng) (i : nat) (side : string)
        (size price depth vol spread : Q) (f : Fill) (i' : nat) :
  0 <= spread ->
  simulate_fill fm rng i side size price depth vol spread = (Some f, i') ->
  (side = "YES" -> py_max (1 # 100) (py_min (99 # 100) price) <= avg_price f)
  /\ (side <> "YES" -> avg_price f <= py_max (1 # 100) (py_min (99 # 100) price)).
Proof.
  intros Hsp H. apply simulate_fill_some_cases in H.
  destruct H as (_ & _ & _ & _ & Hsl & Ha & _).
  assert (Hpos : 0 <= slippage f).
  { rewrite Hsl. pose proof (py_max_ge_r
      (let s := base_slippage_bps (slippage_model fm) / 10000 in
       let s := if qltb 0 depth then s + size_impact_factor (slippage_model fm)
                                          * (filled_size f / depth) else s in
       s * (1 + vol * volatility_factor (slippage_model fm))) (spread / 2)) as Hm.
    unfold estimate_slippage. cbv zeta in *.
    assert (0 <= spread / 2).
    { unfold Qdiv. apply Qmult_le_0_compat; [exact Hsp | discriminate]. }
    lra. }
  rewrite Ha. split; intro Hs.
  - rewrite Hs. simpl String.eqb. cbv iota.
    apply py_max_mono; [lra | apply py_min_mono; lra].
  - apply String.eqb_neq in Hs. rewrite Hs.
    apply py_max_mono; [lra | apply py_min_mono; lra].
Qed.

Lemma simulate_fill_side_price_witness :
  exists f, simulate_fill default_fill_model (fun _ => 1 # 2) 0 "YES" 100 (1 # 2) 1000
                          (1 # 100) (2 # 100) = (Some f, 1%nat)
            /\ py_max (1 # 100) (py_min (99 # 100) (1 # 2)) <= avg_price f.
Proof.
  eexists. split; [vm_compute; reflexivity |].
  refine (proj1 (simulate_fill_side_price default_fill_model (fun _ => 1 # 2) 0 "YES" 100
                   (1 # 2) 1000 (1 # 100) (2 # 100) _ 1%nat _ _) eq_refl).
  - vm_compute. discriminate.
  - vm_compute. reflexivity.
Defined.

End FillProofs.

(** ** Extra: signals/signal_base.py *)
Module SignalProofs.
Import Signals.

(** Every [Signal] (built through [__post_init__]) has a composite score in
    [0, 1]; an actionable one is directional with strength and confidence both
    at least 0.3. *)
Theorem signal_score_and_actionable (nm : string) (d : SignalDirection) (st cf : Q)
        (mid : option string) (feats : list string) :
  let s := mk_signal nm d st cf mid feats in
  0 <= composite_score s <= 1
  /\ (is_actionable s = true ->
      d <> NEUTRAL /\ 3 # 10 <= strength s /\ 3 # 10 <= confidence s).
Proof.
  cbv zeta. unfold composite_score, is_actionable, mk_signal. simpl.
  pose proof (NumericFacts.clamp_bounds 0 1 st ltac:(discriminate)) as Hs.
  pose proof (NumericFacts.clamp_bounds 0 1 cf ltac:(discriminate)) as Hc.
  set (a := py_max 0 (py_min 1 st)) in *. set (b := py_max 0 (py_min 1 cf)) in *.
  unfold composite_score. simpl. clearbody a b.
  assert (H0 : 0 <= a * b) by (apply Qmult_le_0_compat; lra).
  assert (H1 : a * b <= a) by nra. assert (H2 : a * b <= b) by nra.
  split; [split; nra |]. intro H. apply andb_true_iff in H. destruct H as [Hd Hq].
  apply Qle_bool_iff in Hq.
  split; [| split; nra]. intro E. subst d. discriminate.
Qed.

Lemma signal_score_and_actionable_witness :
  is_actionable (mk_signal "s" YES (8 # 10) (9 # 10) None []) = true
  /\ YES <> NEUTRAL.
Proof.
  split; [reflexivity |].
  exact (proj1 (proj2 (signal_score_and_actionable "s" YES (8 # 10) (9 # 10) None [])
                  eq_refl)).
Defined.

End SignalProofs.

(** ** Extra: strategy/sizing.py *)
Module SizingExtraProofs.
Import Sizing NumericFacts.

Lemma div3600_le (s1 s2 : Q) : s1 <= s2 -> s1 / 3600 <= s2 / 3600.
Proof. intro H. unfold Qdiv. apply Qmult_le_compat_r; [exact H | discriminate]. Qed.

(** [_time_adjustment] lies in [0.5, 1] and never decreases as the time to
    resolution grows. *)
Theorem time_adjustment_range_mono (s1 s2 : Q) :
  1 # 2 <= time_adjustment s1 <= 1
  /\ (s1 <= s2 -> time_adjustment s1 <= time_adjustment s2).
Proof.
  unfold time_adjustment. split.
  - destruct (qltb (s1 / 3600) (1 # 2)); [| destruct (qltb (s1 / 3600) 1);
      [| destruct (qltb (s1 / 3600) 2)]]; split; discriminate.
  - intro H. pose proof (div3600_le s1 s2 H) as Hh.
    remember (s1 / 3600) as h1 eqn:E1; clear E1.
    remember (s2 / 3600) as h2 eqn:E2; clear E2.
    destruct (qltb h1 (1 # 2)) eqn:A1; [| destruct (qltb h1 1) eqn:A2;
      [| destruct (qltb h1 2) eqn:A3]];
    (destruct (qltb h2 (1 # 2)) eqn:B1; [| destruct (qltb h2 1) eqn:B2;
      [| destruct (qltb h2 2) eqn:B3]]);
    repeat match goal with
    | E : qltb _ _ = true |- _ => apply qltb_true in E
    | E : qltb _ _ = false |- _ => apply qltb_false in E
    end; try lra; discriminate.
Qed.

Lemma time_adjustment_range_mono_witness : time_adjustment 1800 <= time_adjustment 7200.
Proof. apply (proj2 (time_adjustment_range_mono 1800 7200)). vm_compute. discriminate. Defined.

(** [size_for_target_risk] returns 0 when the risk per contract (entry price
    minus stop, the stop defaulting to 0) is not positive; otherwise, for a
    non-negative target, it returns the largest whole number of contracts whose
    total risk stays within the target. *)
Theorem size_for_target_risk_spec (target entry : Q) (stop : option Q) :
  let risk := entry - match stop with Some s => s | None => 0 end in
  (risk <= 0 -> size_for_target_risk target entry stop = 0%Z)
  /\ (0 < risk -> 0 <= target ->
      inject_Z (size_for_target_risk target entry stop) * risk <= target
      < inject_Z (size_for_target_risk target entry stop + 1) * risk).
Proof.
  cbv zeta. unfold size_for_target_risk. cbv zeta.
  set (r := entry - match stop with Some s => s | None => 0 end).
  split.
  - intro H. destruct (Qle_bool r 0) eqn:E; [reflexivity |].
    apply Qle_bool_false in E. lra.
  - intros Hr Ht. destruct (Qle_bool r 0) eqn:E; [apply Qle_bool_iff in E; lra |].
    assert (Hq : 0 <= target / r) by (apply Qle_shift_div_l; lra).
    rewrite py_int_nonneg by exact Hq.
    pose proof (Qfloor_le (target / r)) as H1. pose proof (Qlt_floor (target / r)) as H2.
    assert (Hid : target / r * r == target) by (field; lra).
    split.
    + rewrite <- Hid at 2. apply Qmult_le_compat_r; lra.
    + rewrite <- Hid at 1. apply Qmult_lt_compat_r; lra.
Qed.

Lemma size_for_target_risk_spec_witness :
  inject_Z (size_for_target_risk 100 (3 # 10) None) * (3 # 10) <= 100.
Proof.
  apply (proj2 (size_for_target_risk_spec 100 (3 # 10) None)); vm_compute;
    [reflexivity | discriminate].
Defined.

(** [optimal_bet_fraction] is 0 for a win probability outside (0, 1); inside it
    raises a division by zero for a zero loss amount; and for a positive payout
    ratio it returns a fraction between 0 and the win probability. *)
Theorem optimal_bet_fraction_spec (p w l : Q) :
  ((p <= 0 \/ 1 <= p) -> optimal_bet_fraction p w l = Some 0)
  /\ (0 < p < 1 -> l == 0 -> optimal_bet_fraction p w l = None)
  /\ (0 < p < 1 -> 0 < w / l ->
      exists k, optimal_bet_fraction p w l = Some k /\ 0 <= k <= p).
Proof.
  unfold optimal_bet_fraction. split; [| split].
  - intro H. destruct (Qle_bool p 0) eqn:E1; [reflexivity |].
    destruct (Qle_bool 1 p) eqn:E2; [reflexivity |].
    apply Qle_bool_false in E1, E2. lra.
  - intros Hp Hl. destruct (Qle_bool p 0) eqn:E1; [apply Qle_bool_iff in E1; lra |].
    destruct (Qle_bool 1 p) eqn:E2; [apply Qle_bool_iff in E2; lra |].
    simpl orb. cbv iota.
    destruct (Qeq_bool l 0) eqn:E3; [reflexivity |].
    apply Qeq_bool_neq in E3. contradiction.
  - intros Hp Hb. destruct (Qle_bool p 0) eqn:E1; [apply Qle_bool_iff in E1; lra |].
    destruct (Qle_bool 1 p) eqn:E2; [apply Qle_bool_iff in E2; lra |].
    simpl orb. cbv iota.
    destruct (Qeq_bool l 0) eqn:E3.
    { apply Qeq_bool_iff in E3. exfalso.
      assert (Hz : w / l == 0) by (rewrite E3; unfold Qdiv; apply Qmult_0_r).
      lra. }
    cbv zeta. set (b := w / l) in *.
    destruct (Qeq_bool b 0) eqn:E4; [apply Qeq_bool_iff in E4; lra |].
    eexists. split; [reflexivity |].
    assert (Hk : (b * p - (1 - p)) / b == p - (1 - p) / b) by (field; lra).
    assert (Hq : 0 <= (1 - p) / b) by (apply Qle_shift_div_l; lra).
    unfold py_max. qbool; lra.
Qed.

Lemma optimal_bet_fraction_spec_witness :
  exists k, optimal_bet_fraction (6 # 10) 1 1 = Some k /\ 0 <= k <= 6 # 10.
Proof.
  apply (proj2 (proj2 (optimal_bet_fraction_spec (6 # 10) 1 1))); vm_compute;
    [split; reflexivity | reflexivity].
Defined.

(** [_kelly_size] is never negative and, for a non-negative bankroll (the
    given one or the default [base_size * 10]), Kelly fraction and win
    probability, never exceeds bankroll * kelly_fraction * win_prob. *)
Theorem kelly_size_bounds (p : SizingParams) (wp e : Q) (bankroll : option Q) :
  let br := match bankroll with Some b => b | None => base_size p * 10 end in
  0 <= br -> 0 <= kelly_fraction p -> 0 <= wp ->
  0 <= kelly_size p wp e bankroll <= br * kelly_fraction p * wp.
Proof.
  cbv zeta. intros Hbr Hk Hw. unfold kelly_size. cbv zeta.
  set (br := match bankroll with Some b => b | None => base_size p * 10 end) in *.
  assert (H0 : 0 <= br * kelly_fraction p * wp).
  { apply Qmult_le_0_compat; [apply Qmult_le_0_compat |]; assumption. }
  destruct (Qle_bool wp 0 || Qle_bool 1 wp) eqn:E1; [split; lra |].
  apply orb_false_iff in E1. destruct E1 as [E1 E2]. apply Qle_bool_false in E1, E2.
  destruct (Qle_bool e 0 || Qle_bool 1 e) eqn:E3; [split; lra |].
  apply orb_false_iff in E3. destruct E3 as [E3 E4]. apply Qle_bool_false in E3, E4.
  set (b := (1 - e) / e).
  assert (Hb : 0 < b) by (apply Qlt_shift_div_l; lra).
  assert (Hkel : (b * wp - (1 - wp)) / b == wp - (1 - wp) / b) by (field; lra).
  assert (Hq : 0 <= (1 - wp) / b) by (apply Qle_shift_div_l; lra).
  destruct (Qle_bool ((b * wp - (1 - wp)) / b) 0) eqn:E5; [split; lra |].
  apply Qle_bool_false in E5.
  set (kel := (b * wp - (1 - wp)) / b) in *.
  assert (H1 : 0 <= br * (kel * kelly_fraction p)).
  { apply Qmult_le_0_compat; [| apply Qmult_le_0_compat]; lra. }
  assert (H2 : br * (kel * kelly_fraction p) <= br * kelly_fraction p * wp).
  { assert (0 <= br * kelly_fraction p * (wp - kel)).
    { apply Qmult_le_0_compat; [apply Qmult_le_0_compat |]; lra. }
    nra. }
  unfold py_max. qbool; lra.
Qed.

Lemma kelly_size_bounds_witness :
  kelly_size default_params (6 # 10) (1 # 2) None <= 1000 * (1 # 4) * (6 # 10).
Proof.
  apply (kelly_size_bounds default_params (6 # 10) (1 # 2) None); vm_compute; discriminate.
Defined.

Lemma calculate_pre_nonneg (p : SizingParams) (conf e : Q) (br : option Q) :
  0 <= conf -> 0 <= min_size p ->
  0 <= (let estimated_win_prob := e + conf * max_edge in
        let estimated_win_prob := py_min (95 # 100) (py_max (5 # 100) estimated_win_prob) in
        let size := kelly_size p estimated_win_prob e br in
        if Qle_bool size 0 then min_size p * conf else size).
Proof.
  intros Hc Hm. cbv zeta.
  destruct (Qle_bool _ 0) eqn:E.
  - apply Qmult_le_0_compat; assumption.
  - apply Qle_bool_false in E. lra.
Qed.

(** For a non-negative confidence and [min_size], [PositionSizer.calculate]
    never returns a smaller size for a larger liquidity score, nor for a larger
    available depth. *)
Theorem calculate_monotone (p : SizingParams) (conf e l1 l2 : Q) (ttr : option Q)
        (d1 d2 : Q) (dep : option Q) (br : option Q) :
  0 <= conf -> 0 <= min_size p ->
  (l1 <= l2 -> (calculate p conf e l1 ttr dep br <= calculate p conf e l2 ttr dep br)%Z)
  /\ (0 <= l1 -> d1 <= d2 ->
      (calculate p conf e l1 ttr (Some d1) br <= calculate p conf e l1 ttr (Some d2) br)%Z).
Proof.
  intros Hc Hm. pose proof (calculate_pre_nonneg p conf e br Hc Hm) as H0.
  unfold calculate. cbv zeta in *.
  set (s0 := if Qle_bool (kelly_size p (py_min (95 # 100) (py_max (5 # 100)
                 (e + conf * max_edge))) e br) 0 then min_size p * conf
             else kelly_size p (py_min (95 # 100) (py_max (5 # 100)
                 (e + conf * max_edge))) e br) in *.
  assert (Hta : forall s, 0 <= time_adjustment s).
  { intro s. destruct (time_adjustment_range_mono s s) as [[H _] _]. lra. }
  split.
  - intro Hl. apply py_int_mono. apply py_max_mono; [lra | apply py_min_mono; [lra |]].
    assert (H1 : s0 * l1 <= s0 * l2).
    { rewrite !(Qmult_comm s0). apply Qmult_le_compat_r; assumption. }
    assert (H2 : (match ttr with Some s => s0 * l1 * time_adjustment s | None => s0 * l1 end)
                 <= (match ttr with Some s => s0 * l2 * time_adjustment s | None => s0 * l2 end)).
    { destruct ttr as [s|]; [apply Qmult_le_compat_r; [exact H1 | apply Hta] | exact H1]. }
    destruct dep as [d|]; [apply py_min_mono; lra | exact H2].
  - intros Hl Hd. apply py_int_mono. apply py_max_mono; [lra | apply py_min_mono; [lra |]].
    apply py_min_mono; [lra |].
    apply Qmult_le_compat_r; [exact Hd | discriminate].
Qed.

Lemma calculate_monotone_witness :
  (calculate default_params (8 # 10) (1 # 2) (3 # 10) None None None
   <= calculate default_params (8 # 10) (1 # 2) (9 # 10) None None None)%Z.
Proof.
  apply (proj1 (calculate_monotone default_params (8 # 10) (1 # 2) (3 # 10) (9 # 10) None
                  0 0 None None ltac:(vm_compute; discriminate)
                  ltac:(vm_compute; discriminate))).
  vm_compute. discriminate.
Defined.

End SizingExtraProofs.

(** ** Extra: strategy/aggregator.py *)
Module AggregatorExtraProofs.
Import Signals Aggregator ExtraDefs.

Lemma to_set_nodup (l : list string) : NoDup (to_set l).
Proof.
  induction l as [|x r IH]; simpl; [constructor |].
  destruct (existsb (String.eqb x) r) eqn:E; [exact IH |].
  constructor; [| exact IH]. rewrite CorrelationProofs.to_set_in. intro H.
  assert (existsb (String.eqb x) r = true) by (apply CorrelationProofs.mem_in, H).
  congruence.
Qed.

Lemma inter_length_sym (a b : list string) :
  NoDup a -> NoDup b -> List.length (set_inter a b) = List.length (set_inter b a).
Proof.
  intros Ha Hb. unfold set_inter.
  assert (Hi : forall u v, incl (filter (fun x => mem x v) u) (filter (fun x => mem x u) v)).
  { intros u v x Hx. apply filter_In in Hx. destruct Hx as [Hu Hv].
    apply filter_In. rewrite CorrelationProofs.mem_in in Hv |- *. tauto. }
  apply Nat.le_antisymm; apply NoDup_incl_length; try apply Hi;
    apply NoDup_filter; assumption.
Qed.

Lemma union_length_sym (a b : list string) :
  NoDup a -> NoDup b -> List.length (set_union a b) = List.length (set_union b a).
Proof.
  intros Ha Hb. unfold set_union. rewrite !length_app.
  pose proof (inter_length_sym a b Ha Hb) as Hs. unfold set_inter in Hs.
  pose proof (filter_length (fun x => mem x b) a).
  pose proof (filter_length (fun x => mem x a) b). lia.
Qed.

Lemma qlen_le {A B} (l1 : list A) (l2 : list B) :
  (List.length l1 <= List.length l2)%nat -> qlen l1 <= qlen l2.
Proof. intro H. unfold qlen. rewrite <- Zle_Qle. lia. Qed.

Lemma overlap_value (fa fb : list string) :
  fa <> [] ->
  match set_union fa fb with
  | [] => 0
  | _ => qlen (set_inter fa fb) / qlen (set_union fa fb)
  end = qlen (set_inter fa fb) / qlen (set_union fa fb).
Proof.
  intro H. remember (qlen (set_inter fa fb) / qlen (set_union fa fb)) as X eqn:EX.
  destruct (set_union fa fb) as [|u us] eqn:U; [| reflexivity].
  exfalso. destruct fa; [congruence | discriminate].
Qed.

(** [compute_feature_overlap] is a Jaccard index: it lies in [0, 1] and does
    not depend on the order of the two signals. *)
Theorem compute_feature_overlap_range_sym (sa sb : Signal) :
  0 <= compute_feature_overlap sa sb <= 1
  /\ compute_feature_overlap sa sb == compute_feature_overlap sb sa.
Proof.
  unfold compute_feature_overlap.
  pose proof (to_set_nodup (features_used sa)) as Na.
  pose proof (to_set_nodup (features_used sb)) as Nb.
  destruct (to_set (features_used sa)) as [|a ra] eqn:Ea;
    [cbv iota; split; [lra | destruct (to_set (features_used sb)); reflexivity] |].
  destruct (to_set (features_used sb)) as [|b rb] eqn:Eb;
    [cbv iota; split; [lra | reflexivity] |].
  rewrite !overlap_value by discriminate.
  assert (HI : (List.length (set_inter (a :: ra) (b :: rb)) <= List.length (a :: ra))%nat)
    by apply filter_length_le.
  assert (HU : (List.length (a :: ra) <= List.length (set_union (a :: ra) (b :: rb)))%nat)
    by (unfold set_union; rewrite length_app; lia).
  assert (HP : 0 < qlen (set_union (a :: ra) (b :: rb))).
  { unfold qlen. change 0 with (inject_Z 0). rewrite <- Zlt_Qlt.
    assert (List.length (a :: ra) = S (List.length ra)) by reflexivity. lia. }
  split.
  - split.
    + apply Qle_shift_div_l; [exact HP |]. rewrite Qmult_0_l. unfold qlen.
      change 0 with (inject_Z 0). rewrite <- Zle_Qle. lia.
    + apply Qle_shift_div_r; [exact HP |]. rewrite Qmult_1_l. apply qlen_le. lia.
  - unfold qlen at 1 2.
    rewrite (inter_length_sym _ _ Na Nb), (union_length_sym _ _ Na Nb). reflexivity.
Qed.

Lemma dict_get_set_str {V} (d : list (string * V)) (k k' : string) (v dflt : V) :
  dict_get String.eqb (dict_set String.eqb d k v) k' dflt
  = if String.eqb k k' then v else dict_get String.eqb d k' dflt.
Proof.
  induction d as [|[k0 v0] r IH]; simpl.
  - destruct (String.eqb k k'); reflexivity.
  - destruct (String.eqb_spec k0 k) as [-> | Hne]; simpl.
    + destruct (String.eqb k k'); reflexivity.
    + rewrite IH. destruct (String.eqb_spec k0 k') as [-> | Hne']; simpl.
      * destruct (String.eqb_spec k k') as [-> | _]; [contradiction | reflexivity].
      * reflexivity.
Qed.

Section TallyFacts.
Variable cfg : AggregatorConfig.


Lemma tally_step_weights (t : Tally) (s : Signal) (k : string) (dflt : Q) :
  dict_get String.eqb (t_weights_used (tally_step cfg t s)) k dflt
  = if String.eqb (name s) k then agg_weight cfg (name s)
    else dict_get String.eqb (t_weights_used t) k dflt.
Proof.
  unfold tally_step. cbv zeta. destruct (direction s); simpl; apply dict_get_set_str.
Qed.

Lemma tally_keeps_weight (l : list Signal) (t : Tally) (k : string) (dflt : Q) :
  dict_get String.eqb (t_weights_used t) k dflt = agg_weight cfg k ->
  dict_get String.eqb (t_weights_used (fold_left (tally_step cfg) l t)) k dflt = agg_weight cfg k.
Proof.
  revert t. induction l as [|s r IH]; intros t H; simpl; [exact H |].
  apply IH. rewrite tally_step_weights.
  destruct (String.eqb_spec (name s) k) as [-> | _]; [reflexivity | exact H].
Qed.

Lemma tally_weights_used (l : list Signal) (t : Tally) (s : Signal) (dflt : Q) :
  In s l ->
  dict_get String.eqb (t_weights_used (fold_left (tally_step cfg) l t)) (name s) dflt
  = agg_weight cfg (name s).
Proof.
  revert t. induction l as [|s' r IH]; intros t H; simpl; [destruct H |].
  destruct H as [<- | H]; [| apply IH, H].
  apply tally_keeps_weight. rewrite tally_step_weights, String.eqb_refl. reflexivity.
Qed.


Lemma tally_counts (l : list Signal) (t : Tally) :
  yes_count (fold_left (tally_step cfg) l t)
  = (yes_count t + Z.of_nat (List.length (filter is_yes l)))%Z
  /\ no_count (fold_left (tally_step cfg) l t)
     = (no_count t + Z.of_nat (List.length (filter (fun s => negb (is_yes s)) l)))%Z.
Proof.
  revert t. induction l as [|s r IH]; intro t; simpl; [lia |].
  destruct (IH (tally_step cfg t s)) as [H1 H2]. rewrite H1, H2.
  unfold tally_step, is_yes. cbv zeta.
  destruct (direction s); simpl; split; lia.
Qed.

Lemma tally_scores (l : list Signal) (t : Tally) :
  (forall s, In s l -> 0 <= composite_score s <= 1) ->
  (forall k w, In (k, w) (weights cfg) -> 0 <= w) ->
  0 <= yes_score t <= yes_weight t -> 0 <= no_score t <= no_weight t ->
  0 <= yes_score (fold_left (tally_step cfg) l t) <= yes_weight (fold_left (tally_step cfg) l t)
  /\ 0 <= no_score (fold_left (tally_step cfg) l t) <= no_weight (fold_left (tally_step cfg) l t).
Proof.
  intros Hc Hw. revert t. induction l as [|s r IH]; intros t Hy Hn; simpl; [split; assumption |].
  assert (Hs := Hc s (or_introl eq_refl)).
  assert (Hw0 : 0 <= agg_weight cfg (name s)).
  { unfold agg_weight, default_weight. generalize (weights cfg) Hw. intros d Hd.
    induction d as [|[k v] d' IHd]; simpl; [discriminate |].
    destruct (String.eqb k (name s)); [apply (Hd k v); left; reflexivity |].
    apply IHd. intros k' w Hk. apply (Hd k' w). right. exact Hk. }
  assert (H1 : 0 <= composite_score s * agg_weight cfg (name s)) by (apply Qmult_le_0_compat; lra).
  assert (H2 : composite_score s * agg_weight cfg (name s) <= agg_weight cfg (name s)).
  { assert (0 <= (1 - composite_score s) * agg_weight cfg (name s)) by (apply Qmult_le_0_compat; lra).
    lra. }
  apply IH; [intros x Hx; apply Hc; right; exact Hx | |];
    unfold tally_step; cbv zeta; fold (agg_weight cfg (name s)); destruct (direction s); simpl; lra.
Qed.
End TallyFacts.

(** Whenever [aggregate] returns an aggregated signal: its direction is YES
    or NO; it has at least [min_signals] contributing signals; [weights_used]
    maps each contributing signal's name to its weight in the config (1 when
    absent); with [require_agreement], its [agreement_ratio] reaches
    [min_agreement_ratio]; and for composite scores in [0, 1] and
    non-negative configured weights, its [aggregate_score] lies in [0, 1]. *)
Theorem aggregate_output (cfg : AggregatorConfig) (sigs : list Signal) (a : AggregatedSignal) :
  aggregate cfg sigs = Some a ->
  agg_direction a <> NEUTRAL
  /\ (min_signals cfg <= Z.of_nat (List.length (contributing_signals a)))%Z
  /\ (forall s dflt, In s (contributing_signals a) ->
        dict_get String.eqb (weights_used a) (name s) dflt
        = dict_get String.eqb (weights cfg) (name s) default_weight)
  /\ (require_agreement cfg = true -> min_agreement_ratio cfg <= agreement_ratio a)
  /\ ((forall s, In s sigs -> 0 <= composite_score s <= 1) ->
      (forall k w, In (k, w) (weights cfg) -> 0 <= w) ->
      0 <= aggregate_score a <= 1).
Proof.
  intro H. unfold aggregate in H.
  destruct (Z.of_nat (List.length sigs) <? min_signals cfg)%Z eqn:E0; [discriminate |].
  destruct (directional sigs) as [|d0 r] eqn:Edl; [discriminate |].
  destruct (Z.of_nat (List.length (d0 :: r)) <? min_signals cfg)%Z eqn:E1; [discriminate |].
  destruct (pick_direction (tally cfg (d0 :: r))) as [[[dir sc] ag]|] eqn:Ep; [| discriminate].
  destruct (require_agreement cfg && qltb (inject_Z ag / qlen (d0 :: r))
                                         (min_agreement_ratio cfg)) eqn:Er; [discriminate |].
  injection H as <-.
  assert (Hin : forall s, In s (d0 :: r) -> In s sigs /\ direction s <> NEUTRAL).
  { intros s Hs. rewrite <- Edl in Hs. unfold directional in Hs. apply filter_In in Hs.
    destruct Hs as [Hs Hd]. split; [exact Hs |]. intro E. rewrite E in Hd. discriminate. }
  destruct (tally_counts cfg (d0 :: r) tally0) as [Cy Cn].
  change (yes_count tally0) with 0%Z in Cy. change (no_count tally0) with 0%Z in Cn.
  unfold tally in Ep. unfold pick_direction in Ep.
  set (T := fold_left (tally_step cfg) (d0 :: r) tally0) in *.
  cbn [agg_direction contributing_signals weights_used aggregate_score].
  split; [| split; [| split; [| split]]].
  - destruct (qltb (no_score T) (yes_score T)); [injection Ep as <- _ _; discriminate |].
    destruct (qltb (yes_score T) (no_score T)); [injection Ep as <- _ _; discriminate |].
    discriminate.
  - apply Z.ltb_ge in E1. exact E1.
  - intros s dflt Hs. apply tally_weights_used. exact Hs.
  - intro Hreq. rewrite Hreq in Er. simpl in Er. apply qltb_false in Er.
    unfold agreement_ratio. cbn [contributing_signals agg_direction].
    assert (Hag : qlen (filter (fun s => dir_eqb (direction s) dir) (d0 :: r)) == inject_Z ag).
    { destruct (qltb (no_score T) (yes_score T)).
      - injection Ep as <- _ <-. rewrite Cy. unfold qlen. rewrite Z.add_0_l. reflexivity.
      - destruct (qltb (yes_score T) (no_score T)); [| discriminate].
        injection Ep as <- _ <-. rewrite Cn. unfold qlen. rewrite Z.add_0_l.
        rewrite (filter_ext_in _ (fun s => negb (is_yes s))); [reflexivity |].
        intros s Hs. destruct (Hin s Hs) as [_ Hd]. unfold is_yes.
        destruct (direction s); [reflexivity | reflexivity | contradiction]. }
    rewrite Hag. exact Er.
  - intros Hc Hw.
    destruct (tally_scores cfg (d0 :: r) tally0) as [Sy Sn].
    + intros s Hs. apply Hc, (Hin s Hs).
    + exact Hw.
    + simpl. lra.
    + simpl. lra.
    + fold T in Sy, Sn.
      destruct (qltb (no_score T) (yes_score T)).
      * injection Ep as _ <- _. destruct (qltb 0 (yes_weight T)) eqn:Ew; [| lra].
        apply qltb_true in Ew.
        split; [apply Qle_shift_div_l | apply Qle_shift_div_r]; lra.
      * destruct (qltb (yes_score T) (no_score T)); [| discriminate].
        injection Ep as _ <- _. destruct (qltb 0 (no_weight T)) eqn:Ew; [| lra].
        apply qltb_true in Ew.
        split; [apply Qle_shift_div_l | apply Qle_shift_div_r]; lra.
Qed.

Lemma aggregate_output_witness :
  exists a, aggregate default_config
              [ClaimDefs.yes_signal "a" (8 # 10) (9 # 10) ["x"];
               ClaimDefs.yes_signal "b" (6 # 10) (7 # 10) ["y"]] = Some a
  /\ 0 <= aggregate_score a <= 1.
Proof.
  eexists. split; [vm_compute; reflexivity |].
  refine (proj2 (proj2 (proj2 (proj2 (aggregate_output default_config
            [ClaimDefs.yes_signal "a" (8 # 10) (9 # 10) ["x"];
             ClaimDefs.yes_signal "b" (6 # 10) (7 # 10) ["y"]] _ _)))) _ _).
  - vm_compute. reflexivity.
  - intros s [<- | [<- | []]]; vm_compute; split; discriminate.
  - intros k w [].
Defined.
End AggregatorExtraProofs.

(** ** Extra: strategy/ranker.py *)
Module RankerExtraProofs.
Import Signals Aggregator Ranker NumericFacts.

Lemma rank_step_fst (cfg : RankerConfig) (md : list (string * Market))
      (recs : list Recommendation) (wl : list CandidateOpportunity) (agg : AggregatedSignal) :
  fst (rank_all_step cfg md (recs, wl) agg) = rank_step cfg md recs agg.
Proof.
  unfold rank_step, rank_all_step, evaluated_reasons, rejection_reasons_for, evaluated_rec.
  cbv zeta. cbn [rec_expected_value set_rank_score].
  destruct (qltb (rec_expected_value (temp_rec (lookup_market md (agg_market_id agg)) agg))
                 (min_ev cfg));
    [| destruct (qltb (agg_confidence agg) (min_confidence cfg))]; reflexivity.
Qed.

Lemma rank_fold (cfg : RankerConfig) (md : list (string * Market))
      (l : list AggregatedSignal) (recs : list Recommendation) (wl : list CandidateOpportunity) :
  fst (fold_left (rank_all_step cfg md) l (recs, wl)) = fold_left (rank_step cfg md) l recs.
Proof.
  revert recs wl. induction l as [|agg r IH]; intros recs wl; cbn [fold_left];
    [reflexivity |].
  rewrite <- (rank_step_fst cfg md recs wl agg).
  destruct (rank_all_step cfg md (recs, wl) agg) as [recs' wl'] eqn:E. apply IH.
Qed.

(** [rank] returns exactly the recommendation list of [rank_all]: the same
    filters, the same recommendations, in the same order, truncated alike. *)
Theorem rank_eq_rank_all (cfg : RankerConfig) (aggs : list AggregatedSignal)
        (md : list (string * Market)) :
  rank cfg aggs md = fst (rank_all cfg aggs md).
Proof.
  unfold rank, rank_all.
  rewrite <- (rank_fold cfg md aggs [] []).
  destruct (fold_left (rank_all_step cfg md) aggs ([], [])). reflexivity.
Qed.

(** [_calculate_max_size] is at least 10 and at most the larger of 10 and a
    tenth of the available depth (1000 when absent); for a confidence at most 1
    and a liquidity score (0.5 when absent) in [0, 1] it is at most 100. *)
Theorem calculate_max_size_bounds (agg : AggregatedSignal) (m : Market) :
  (10 <= calculate_max_size agg m)%Z
  /\ (calculate_max_size agg m <= Z.max 10 (py_int (get_or (m_available_depth m) 1000 * (1 # 10))%Q))%Z
  /\ (agg_confidence agg <= 1 -> 0 <= get_or (m_liquidity_score m) (1 # 2) <= 1 ->
      (calculate_max_size agg m <= 100)%Z).
Proof.
  unfold calculate_max_size. cbv zeta.
  set (b := py_int (100 * agg_confidence agg)).
  set (liq := get_or (m_liquidity_score m) (1 # 2)).
  set (dp := py_int (get_or (m_available_depth m) 1000 * (1 # 10))).
  split; [lia | split; [lia |]].
  intros Hc Hl.
  assert (Hb : (b <= 100)%Z).
  { change 100%Z with (py_int 100). apply py_int_mono. lra. }
  assert (Hs : (py_int (inject_Z b * liq) <= 100)%Z).
  { change 100%Z with (py_int 100). apply py_int_mono.
    assert (Hb' : inject_Z b <= 100) by (change 100 with (inject_Z 100); rewrite <- Zle_Qle; exact Hb).
    destruct (Qlt_le_dec (inject_Z b) 0).
    - assert (inject_Z b * liq <= 0).
      { assert (0 <= - inject_Z b * liq) by (apply Qmult_le_0_compat; lra). lra. }
      lra.
    - assert (0 <= inject_Z b * (1 - liq)) by (apply Qmult_le_0_compat; lra). lra. }
  lia.
Qed.

Lemma calculate_max_size_bounds_witness :
  (calculate_max_size (ClaimDefs.agg_with_score (1 # 2)) empty_market <= 100)%Z.
Proof.
  refine (proj2 (proj2 (calculate_max_size_bounds (ClaimDefs.agg_with_score (1 # 2))
                          empty_market)) _ _).
  - discriminate.
  - split; discriminate.
Defined.

Lemma weighted_le (w x : Q) : 0 <= w -> x <= 1 -> w * x <= w.
Proof. intros Hw Hx. assert (0 <= w * (1 - x)) by (apply Qmult_le_0_compat; lra). lra. Qed.

(** With non-negative weights, a confidence and a liquidity score (0.5 when
    absent) in [0, 1] and a non-negative time to kickoff (86400 when absent),
    [_calculate_rank_score] is at most the sum of the four weights, and it is
    non-negative for a non-negative expected value. *)
Theorem calculate_rank_score_bounds (cfg : RankerConfig) (rec : Recommendation) (m : Market) :
  0 <= ev_weight cfg -> 0 <= confidence_weight cfg ->
  0 <= liquidity_weight cfg -> 0 <= timing_weight cfg ->
  0 <= rec_confidence rec <= 1 ->
  0 <= get_or (m_liquidity_score m) (1 # 2) <= 1 ->
  0 <= get_or (m_time_to_kickoff m) 86400 ->
  calculate_rank_score cfg rec m
  <= ev_weight cfg + confidence_weight cfg + liquidity_weight cfg + timing_weight cfg
  /\ (0 <= rec_expected_value rec -> 0 <= calculate_rank_score cfg rec m).
Proof.
  intros Hw1 Hw2 Hw3 Hw4 Hc Hl Ht. unfold calculate_rank_score. cbv zeta.
  set (ev := py_min 1 (rec_expected_value rec / (1 # 10))).
  set (tm := py_max 0 (1 - get_or (m_time_to_kickoff m) 86400 / 7200)).
  set (liq := get_or (m_liquidity_score m) (1 # 2)) in *.
  assert (He : ev <= 1) by apply py_min_le_l.
  assert (Ht0 : 0 <= get_or (m_time_to_kickoff m) 86400 / 7200)
    by (apply Qle_shift_div_l; [reflexivity | lra]).
  assert (Htm : 0 <= tm <= 1) by (unfold tm, py_max; qbool; lra).
  pose proof (weighted_le _ _ Hw1 He). pose proof (weighted_le _ _ Hw2 (proj2 Hc)).
  pose proof (weighted_le _ _ Hw3 (proj2 Hl)). pose proof (weighted_le _ _ Hw4 (proj2 Htm)).
  split; [lra |].
  intro Hev.
  assert (He0 : 0 <= ev).
  { unfold ev, py_min. qbool; [lra |]. apply Qle_shift_div_l; [reflexivity | lra]. }
  assert (0 <= ev_weight cfg * ev) by (apply Qmult_le_0_compat; lra).
  assert (0 <= confidence_weight cfg * rec_confidence rec) by (apply Qmult_le_0_compat; lra).
  assert (0 <= liquidity_weight cfg * liq) by (apply Qmult_le_0_compat; lra).
  assert (0 <= timing_weight cfg * tm) by (apply Qmult_le_0_compat; lra).
  lra.
Qed.

Lemma calculate_rank_score_bounds_witness :
  calculate_rank_score default_ranker ClaimDefs.proposed_rec empty_market <= 1.
Proof.
  refine (proj1 (calculate_rank_score_bounds default_ranker ClaimDefs.proposed_rec empty_market
                   _ _ _ _ _ _ _)); vm_compute; try discriminate; split; discriminate.
Defined.
End RankerExtraProofs.

(** ** Extra: strategy/portfolio.py *)
Module PortfolioExtraProofs.
Import Ranker Portfolio ExtraDefs.

(** [_size_to_fit] returns a non-negative whole number of contracts: 0 when
    the smallest headroom (total, event and league caps minus the current
    exposure there, and the per-market cap) or the entry price is not positive;
    otherwise the largest size whose cost fits within every one of these four
    amounts. *)
Theorem size_to_fit_spec (lim : PortfolioLimits) (ps : list PortfolioPosition)
        (rec : Recommendation) :
  let at_ := max_total_exposure lim - total_exposure ps in
  let ae := max_per_event lim - event_exposure ps rec in
  let al := max_per_league lim - league_exposure ps rec in
  let avail := py_min (py_min (py_min at_ ae) al) (max_per_market lim) in
  let s := size_to_fit lim ps rec in
  let price := rec_entry_price rec in
  (0 <= s)%Z
  /\ (avail <= 0 \/ price <= 0 -> s = 0%Z)
  /\ (0 < avail -> 0 < price ->
      inject_Z s * price <= at_ /\ inject_Z s * price <= ae
      /\ inject_Z s * price <= al /\ inject_Z s * price <= max_per_market lim
      /\ avail < inject_Z (s + 1) * price).
Proof.
  cbv zeta. unfold size_to_fit. cbv zeta.
  set (at_ := max_total_exposure lim - total_exposure ps).
  set (ae := max_per_event lim - event_exposure ps rec).
  set (al := max_per_league lim - league_exposure ps rec).
  set (avail := py_min (py_min (py_min at_ ae) al) (max_per_market lim)).
  set (price := rec_entry_price rec).
  assert (H1 : avail <= at_).
  { unfold avail. pose proof (py_min_le_l (py_min (py_min at_ ae) al) (max_per_market lim)).
    pose proof (py_min_le_l (py_min at_ ae) al). pose proof (py_min_le_l at_ ae). lra. }
  assert (H2 : avail <= ae).
  { unfold avail. pose proof (py_min_le_l (py_min (py_min at_ ae) al) (max_per_market lim)).
    pose proof (py_min_le_l (py_min at_ ae) al). pose proof (py_min_le_r at_ ae). lra. }
  assert (H3 : avail <= al).
  { unfold avail. pose proof (py_min_le_l (py_min (py_min at_ ae) al) (max_per_market lim)).
    pose proof (py_min_le_r (py_min at_ ae) al). lra. }
  assert (H4 : avail <= max_per_market lim) by apply py_min_le_r.
  destruct (Qle_bool avail 0 || Qle_bool price 0) eqn:E.
  - split; [lia | split; [reflexivity |]].
    intros Ha Hp. apply orb_true_iff in E.
    destruct E as [E | E]; apply Qle_bool_iff in E; lra.
  - apply orb_false_iff in E. destruct E as [Ea Ep].
    apply Qle_bool_false in Ea, Ep.
    assert (Hq : 0 <= avail / price) by (apply Qle_shift_div_l; lra).
    rewrite py_int_nonneg by exact Hq.
    assert (Hf : (0 <= Qfloor (avail / price))%Z).
    { change 0%Z with (Qfloor 0). apply Qfloor_resp_le. exact Hq. }
    split; [exact Hf | split; [intros [Ha | Hp]; lra |]].
    intros _ _.
    pose proof (Qfloor_le (avail / price)) as F1. pose proof (Qlt_floor (avail / price)) as F2.
    assert (Hid : avail / price * price == avail) by (field; lra).
    assert (Hs : inject_Z (Qfloor (avail / price)) * price <= avail).
    { rewrite <- Hid at 2. apply Qmult_le_compat_r; lra. }
    assert (Hl : avail < inject_Z (Qfloor (avail / price) + 1) * price).
    { rewrite <- Hid at 1. apply Qmult_lt_compat_r; lra. }
    repeat split; lra.
Qed.

Lemma size_to_fit_spec_witness :
  inject_Z (size_to_fit default_limits [ClaimDefs.held_position] ClaimDefs.proposed_rec)
    * (1 # 2) <= max_per_market default_limits.
Proof.
  refine (proj1 (proj2 (proj2 (proj2 (proj2 (proj2 (size_to_fit_spec default_limits
            [ClaimDefs.held_position] ClaimDefs.proposed_rec)) _ _)))));
    vm_compute; reflexivity.
Defined.

Lemma adjust_one_identity (lim : PortfolioLimits) (ps : list PortfolioPosition)
      (r : Recommendation) :
  rec_identity (adjust_one lim ps r) = rec_identity r
  /\ exists extra, rec_risk_flags (adjust_one lim ps r) = rec_risk_flags r ++ extra.
Proof.
  unfold adjust_one.
  assert (Hc : rec_identity (correlation_step ps r) = rec_identity r
               /\ exists extra, rec_risk_flags (correlation_step ps r) = rec_risk_flags r ++ extra).
  { unfold correlation_step.
    destruct (filter _ ps); [split; [reflexivity | exists []; symmetry; apply app_nil_r] |].
    destruct (existsb _ _); (split; [reflexivity | eexists; reflexivity]). }
  destruct Hc as [Hc [e1 He1]].
  unfold limit_step. destruct (check_limits lim ps (correlation_step ps r)) as [[|] vs].
  - split; [exact Hc | exists e1; exact He1].
  - split; [exact Hc |]. exists (e1 ++ map LimitFlag vs). simpl. rewrite He1, app_assoc.
    reflexivity.
Qed.

Lemma adjust_as_filter_map (lim : PortfolioLimits) (ps : list PortfolioPosition)
      (recs : list Recommendation) :
  adjust_for_correlation lim ps recs
  = map (adjust_one lim ps)
        (filter (fun r => (10 <=? rec_max_size (adjust_one lim ps r))%Z) recs).
Proof.
  induction recs as [|r rs IH]; simpl; [reflexivity |].
  destruct (10 <=? rec_max_size (adjust_one lim ps r))%Z; simpl; rewrite IH; reflexivity.
Qed.

(** [adjust_for_correlation] keeps, in their order, exactly the
    recommendations whose adjusted size is at least 10; each kept one has its
    market, event, contract, price, EV, timing, signals, league, rank score and
    confidence unchanged, and its original risk flags followed by the new ones. *)
Theorem adjust_for_correlation_output (lim : PortfolioLimits) (ps : list PortfolioPosition)
        (recs : list Recommendation) :
  let kept := filter (fun r => (10 <=? rec_max_size (adjust_one lim ps r))%Z) recs in
  let out := adjust_for_correlation lim ps recs in
  Forall (fun r => (10 <= rec_max_size r)%Z) out
  /\ map rec_identity out = map rec_identity kept
  /\ Forall2 (fun r r' => exists extra, rec_risk_flags r' = rec_risk_flags r ++ extra) kept out.
Proof.
  cbv zeta. rewrite adjust_as_filter_map. split; [| split].
  - apply Forall_map, Forall_forall. intros r Hr. apply filter_In in Hr.
    destruct Hr as [_ Hr]. apply Z.leb_le, Hr.
  - rewrite map_map. apply map_ext. intro r. apply adjust_one_identity.
  - induction recs as [|r rs IH]; simpl; [constructor |].
    destruct (10 <=? rec_max_size (adjust_one lim ps r))%Z; simpl; [| exact IH].
    constructor; [apply adjust_one_identity | exact IH].
Qed.
End PortfolioExtraProofs.

(** ** Extra: backtest/simulator.py *)
Module SimulatorExtraProofs.
Import Fills Simulator ExtraDefs.


Lemma qsum_app (l1 l2 : list Q) : qsum (l1 ++ l2) == qsum l1 + qsum l2.
Proof.
  induction l1 as [|x r IH]; simpl; [ring |]. rewrite IH. ring.
Qed.

Lemma remove_first_skip (m : string) (A L : list Position) (p : Position) :
  Forall (fun q => pos_market_id q <> m) A -> pos_market_id p = m ->
  remove_first_in_market m (A ++ p :: L) = A ++ L.
Proof.
  intros HA Hp. induction HA as [|q A Hq HA IH]; simpl.
  - rewrite Hp, String.eqb_refl. reflexivity.
  - apply String.eqb_neq in Hq. rewrite Hq, IH. reflexivity.
Qed.

Lemma settle_one_fields (snap : Snapshot) (st : BacktestState) (p : Position) :
  is_settled snap p = true ->
  capital (settle_one snap st p) == capital st + settled_value (closed_record snap p)
  /\ closed_positions (settle_one snap st p) = closed_positions st ++ [closed_record snap p]
  /\ fills (settle_one snap st p) = fills st
  /\ rng_index (settle_one snap st p) = rng_index st.
Proof.
  intro H. unfold settle_one. rewrite H. simpl. repeat split.
  unfold settled_value, closed_record. simpl. destruct (String.eqb _ _); ring.
Qed.


Lemma settle_fold (snap : Snapshot) (L P : list Position) (st : BacktestState) :
  positions st = filter (unsettled snap) P ++ L ->
  positions (fold_left (settle_one snap) L st) = filter (unsettled snap) (P ++ L)
  /\ closed_positions (fold_left (settle_one snap) L st)
     = closed_positions st ++ map (closed_record snap) (filter (is_settled snap) L)
  /\ capital (fold_left (settle_one snap) L st)
     == capital st + qsum (map settled_value (map (closed_record snap) (filter (is_settled snap) L)))
  /\ fills (fold_left (settle_one snap) L st) = fills st
  /\ rng_index (fold_left (settle_one snap) L st) = rng_index st.
Proof.
  revert P st. induction L as [|p L IH]; intros P st H; simpl.
  - rewrite app_nil_r in H |- *. rewrite app_nil_r. repeat split; [exact H | ring].
  - destruct (is_settled snap p) eqn:Es.
    + assert (Hrm : positions (settle_one snap st p) = filter (unsettled snap) P ++ L).
      { unfold settle_one. rewrite Es. simpl. rewrite H. apply remove_first_skip; [| reflexivity].
        apply Forall_forall. intros q Hq E. apply filter_In in Hq. destruct Hq as [_ Hq].
        unfold unsettled, is_settled in Hq. unfold is_settled in Es.
        rewrite E, Es in Hq. discriminate. }
      assert (HP : filter (unsettled snap) (P ++ [p]) = filter (unsettled snap) P).
      { rewrite filter_app. simpl. unfold unsettled at 2. rewrite Es. simpl. apply app_nil_r. }
      destruct (IH (P ++ [p]) (settle_one snap st p)) as (H1 & H2 & H3 & H4 & H5);
        [rewrite HP; exact Hrm |].
      rewrite <- app_assoc in H1. simpl in H1.
      destruct (settle_one_fields snap st p Es) as (F1 & F2 & F3 & F4).
      rewrite F2 in H2. rewrite F1 in H3. rewrite F3 in H4. rewrite F4 in H5.
      split; [exact H1 |]. split; [rewrite H2, <- app_assoc; reflexivity |].
      split; [| split; assumption].
      rewrite H3. simpl. ring.
    + assert (HP : filter (unsettled snap) (P ++ [p]) ++ L = filter (unsettled snap) P ++ p :: L).
      { rewrite filter_app. simpl. unfold unsettled at 2. rewrite Es. simpl.
        rewrite <- app_assoc. reflexivity. }
      assert (Hs : settle_one snap st p = st) by (unfold settle_one; rewrite Es; reflexivity).
      rewrite Hs.
      destruct (IH (P ++ [p]) st) as (H1 & H2 & H3 & H4 & H5); [rewrite HP; exact H |].
      rewrite <- app_assoc in H1. simpl in H1. repeat split; assumption.
Qed.

(** [_check_settlements] closes exactly the open positions whose market is in
    [settled_markets], in their order, keeps the others open in their order,
    and adds to the capital the value of the closed records (size on a win,
    0 on a loss); fills and the random-draw counter are untouched. *)
Theorem check_settlements_exact (snap : Snapshot) (st : BacktestState) :
  let st' := check_settlements snap st in
  let settled := filter (is_settled snap) (positions st) in
  positions st' = filter (fun p => negb (is_settled snap p)) (positions st)
  /\ closed_positions st' = closed_positions st ++ map (closed_record snap) settled
  /\ capital st' == capital st + qsum (map settled_value (map (closed_record snap) settled))
  /\ fills st' = fills st /\ rng_index st' = rng_index st.
Proof.
  cbv zeta. unfold check_settlements.
  exact (settle_fold snap (positions st) [] st eq_refl).
Qed.

Section Ledger.
Variables (cfg : BacktestConfig) (fm : FillModel) (rng : Rng).


Lemma execute_signal_ledger (st : BacktestState) (sg : BSignal) (snap : Snapshot) :
  ledger cfg st -> ledger cfg (execute_signal cfg fm rng st sg snap).
Proof.
  intros [Hc Hn]. unfold execute_signal.
  destruct (qltb _ 10); [split; assumption |].
  destruct (simulate_fill _ _ _ _ _ _ _ _ _) as [[f|] i']; [| split; assumption].
  unfold ledger. simpl. rewrite !map_app, qsum_app, !length_app. simpl.
  split; [| lia].
  rewrite Hc. unfold fill_cost. destruct (include_fees cfg); simpl; ring.
Qed.

Lemma check_settlements_ledger (snap : Snapshot) (st : BacktestState) :
  ledger cfg st -> ledger cfg (check_settlements snap st).
Proof.
  intros [Hc Hn]. unfold check_settlements.
  destruct (settle_fold snap (positions st) [] st eq_refl) as (H1 & H2 & H3 & H4 & _).
  split.
  - rewrite H3, H2, H4, map_app, qsum_app, Hc. simpl. ring.
  - rewrite H1, H2, H4, length_app, length_map. simpl.
    pose proof (filter_length (is_settled snap) (positions st)). unfold unsettled. lia.
Qed.
Lemma run_loop_ledger (gens : list Generator) (snaps : list Snapshot)
      (st : BacktestState) (curve : list (Z * Q)) :
  ledger cfg st -> ledger cfg (fst (run_loop cfg fm rng gens snaps st curve)).
Proof.
  revert st curve. induction snaps as [|snap r IH]; intros st curve H; simpl; [exact H |].
  destruct (timestamp snap <? start_date cfg)%Z; [apply IH, H |].
  destruct (end_date cfg <? timestamp snap)%Z; [exact H |].
  apply IH.
  assert (Hs := check_settlements_ledger snap st H).
  revert Hs. generalize (check_settlements snap st). intros s0 Hs.
  revert s0 Hs. induction (generate_signals snap gens) as [|sg l IHl]; intros s0 Hs;
    simpl; [exact Hs |].
  apply IHl, execute_signal_ledger, Hs.
Qed.

Lemma run_loop_curve (gens : list Generator) (snaps : list Snapshot)
      (st : BacktestState) (curve : list (Z * Q)) :
  exists new, snd (run_loop cfg fm rng gens snaps st curve) = curve ++ new
  /\ Forall (fun e => start_date cfg <= fst e <= end_date cfg)%Z new
  /\ (List.length new <= List.length snaps)%nat
  /\ ((new = [] /\ fst (run_loop cfg fm rng gens snaps st curve) = st)
      \/ exists pre ts, new = pre ++ [(ts, capital (fst (run_loop cfg fm rng gens snaps st curve)))]).
Proof.
  revert st curve. induction snaps as [|snap r IH]; intros st curve; simpl.
  - exists []. rewrite app_nil_r.
    split; [reflexivity | split; [constructor | split; [simpl; lia | left; split; reflexivity]]].
  - destruct (timestamp snap <? start_date cfg)%Z eqn:E1.
    + destruct (IH st curve) as (new & H1 & H2 & H3 & H4).
      exists new. split; [exact H1 | split; [exact H2 | split; [simpl; lia | exact H4]]].
    + destruct (end_date cfg <? timestamp snap)%Z eqn:E2.
      * exists []. rewrite app_nil_r.
        split; [reflexivity | split; [constructor | split; [simpl; lia | left; split; reflexivity]]].
      * apply Z.ltb_ge in E1, E2.
        set (st' := fold_left (fun s sg => execute_signal cfg fm rng s sg snap)
                       (generate_signals snap gens) (check_settlements snap st)).
        destruct (IH st' (curve ++ [(timestamp snap, equity st')])) as (new & H1 & H2 & H3 & H4).
        exists ((timestamp snap, equity st') :: new).
        split; [rewrite H1, <- app_assoc; reflexivity |].
        split; [constructor; [simpl; lia | exact H2] |].
        split; [simpl; lia |].
        right. destruct H4 as [[-> ->] | (pre & ts & ->)].
        -- exists [], (timestamp snap). reflexivity.
        -- exists ((timestamp snap, equity st') :: pre), ts. reflexivity.
Qed.
End Ledger.

(** Over a whole [run], the capital equals the initial capital, minus the cost
    of every fill (price plus fees when [include_fees]), plus the value paid by
    every closed position; and every fill opened exactly one position, which is
    either still open or closed. *)
Theorem run_ledger (cfg : BacktestConfig) (fm : FillModel) (rng : Rng)
        (snaps : list Snapshot) (gens : list Generator) :
  let st := fst (run cfg fm rng snaps gens) in
  capital st == initial_capital cfg - qsum (map (fill_cost cfg) (fills st))
                + qsum (map settled_value (closed_positions st))
  /\ (List.length (positions st) + List.length (closed_positions st)
      = List.length (fills st))%nat.
Proof.
  cbv zeta. unfold run. apply run_loop_ledger. split; simpl; [ring | reflexivity].
Qed.

(** The equity curve of [run] has at most one point per snapshot, every point
    is stamped within [start_date, end_date], and its last point (if any) holds
    the final capital. *)
Theorem run_equity_curve (cfg : BacktestConfig) (fm : FillModel) (rng : Rng)
        (snaps : list Snapshot) (gens : list Generator) :
  let curve := snd (run cfg fm rng snaps gens) in
  Forall (fun e => start_date cfg <= fst e <= end_date cfg)%Z curve
  /\ (List.length curve <= List.length snaps)%nat
  /\ (curve = [] \/ exists pre ts, curve = pre ++ [(ts, capital (fst (run cfg fm rng snaps gens)))]).
Proof.
  cbv zeta. unfold run.
  destruct (run_loop_curve cfg fm rng gens snaps (init_state cfg) []) as (new & H1 & H2 & H3 & H4).
  rewrite H1. simpl. split; [exact H2 | split; [exact H3 |]].
  destruct H4 as [[-> _] | H]; [left; reflexivity | right; exact H].
Qed.

(** A NO position that [_check_settlements] closes as won (the market settles
    on "NO", exit price 1.0) reports a [pnl] of [(entry_price - 1) * size]
    although it paid out its full size: for an entry price below 1.0 and a
    positive size a won NO position shows a loss. *)
Theorem closed_no_won_pnl (snap : Snapshot) (p : Position) :
  pos_direction p = "NO" ->
  dict_get String.eqb (settled_markets snap) (pos_market_id p) EmptyString = "NO" ->
  pnl (closed_record snap p) = Some ((pos_entry_price p - 1) * pos_size p)
  /\ settled_value (closed_record snap p) == pos_size p
  /\ (pos_entry_price p < 1 -> 0 < pos_size p ->
      (pos_entry_price p - 1) * pos_size p < 0).
Proof.
  intros Hd Hr. unfold pnl, settled_value, closed_record. cbv zeta.
  cbn [exit_price pos_direction pos_entry_price pos_size get_or].
  rewrite Hr, Hd. cbn.
  split; [reflexivity | split; [ring | intros H1 H2; nra]].
Qed.

Lemma closed_no_won_pnl_witness :
  get_or (pnl (closed_record no_settles no_position)) 0 == - (50 # 1)
  /\ pnl (closed_record no_settles no_position)
     = Some ((pos_entry_price no_position - 1) * pos_size no_position).
Proof.
  split; [vm_compute; reflexivity |].
  refine (proj1 (closed_no_won_pnl no_settles no_position _ _)); reflexivity.
Defined.
End SimulatorExtraProofs.

(** ** Extra: backtest/metrics.py *)
Module MetricsProofs.
Import Simulator Metrics.

Lemma drawdown_loop_ok (l : list Q) :
  forall peak md mdur cd, 0 < peak -> Forall (fun e => 0 <= e) l -> 0 <= md <= 1 ->
  (0 <= cd <= mdur)%Z ->
  exists dd dur, drawdown_loop peak md mdur cd l = Some (dd, dur)
  /\ md <= dd <= 1 /\ (mdur <= dur <= mdur + Z.of_nat (List.length l))%Z.
Proof.
  induction l as [|e r IH]; intros peak md mdur cd Hp Hl Hm Hc; simpl.
  - exists md, mdur. split; [reflexivity | split; [lra | lia]].
  - inversion Hl as [|? ? He Hr]; subst.
    destruct (qltb peak e) eqn:E1.
    + apply qltb_true in E1.
      destruct (IH e md mdur 0%Z ltac:(lra) Hr Hm ltac:(lia)) as (dd & dur & H1 & H2 & H3).
      exists dd, dur. split; [exact H1 | split; [exact H2 | lia]].
    + apply qltb_false in E1.
      destruct (Qeq_bool peak 0) eqn:E2; [apply Qeq_bool_iff in E2; lra |].
      cbv zeta.
      assert (Hd : 0 <= (peak - e) / peak <= 1).
      { split; [apply Qle_shift_div_l; lra | apply Qle_shift_div_r; lra]. }
      assert (Hx : 0 <= py_max md ((peak - e) / peak) <= 1).
      { unfold py_max. qbool; lra. }
      destruct (IH peak (py_max md ((peak - e) / peak)) (Z.max mdur (cd + 1)) (cd + 1)%Z
                   Hp Hr Hx ltac:(lia)) as (dd & dur & H1 & H2 & H3).
      exists dd, dur. split; [exact H1 |]. split.
      * split; [| lra]. pose proof (py_max_ge_l md ((peak - e) / peak)). lra.
      * lia.
Qed.

Lemma drawdown_pos_start (e0 : Q) (rest : list Q) :
  0 < e0 -> Forall (fun e => 0 <= e) rest ->
  exists dd dur, calculate_drawdown (e0 :: rest) = Some (dd, dur)
  /\ 0 <= dd <= 1 /\ (1 <= dur <= Z.of_nat (List.length (e0 :: rest)))%Z.
Proof.
  intros H0 Hr. unfold calculate_drawdown. simpl.
  assert (E1 : qltb e0 e0 = false) by (apply qltb_false; lra).
  destruct (Qeq_bool e0 0) eqn:E2; [apply Qeq_bool_iff in E2; lra |].
  rewrite E1. cbv zeta.
  assert (Hx : 0 <= py_max 0 ((e0 - e0) / e0) <= 1).
  { assert (Hz : (e0 - e0) / e0 == 0) by (field; lra). unfold py_max. qbool; lra. }
  destruct (drawdown_loop_ok rest e0 _ (Z.max 0 (0 + 1)) (0 + 1)%Z H0 Hr Hx ltac:(lia))
    as (dd & dur & H1 & H2 & H3).
  exists dd, dur. split; [exact H1 |]. split; [lra | lia].
Qed.

(** [calculate_drawdown] raises a division by zero on a curve that starts at
    0; on a curve with a positive start and no negative point it returns a
    maximum drawdown in [0, 1] and a duration between 1 and the curve length
    (the first point always counts as one period of drawdown). *)
Theorem calculate_drawdown_spec (e0 : Q) (rest : list Q) :
  (e0 == 0 -> calculate_drawdown (e0 :: rest) = None)
  /\ (0 < e0 -> Forall (fun e => 0 <= e) rest ->
      exists dd dur, calculate_drawdown (e0 :: rest) = Some (dd, dur)
      /\ 0 <= dd <= 1 /\ (1 <= dur <= Z.of_nat (List.length (e0 :: rest)))%Z).
Proof.
  split.
  - intro H. unfold calculate_drawdown. simpl.
    assert (E1 : qltb e0 e0 = false) by (apply qltb_false; lra).
    rewrite E1. destruct (Qeq_bool e0 0) eqn:E2; [reflexivity |].
    apply Qeq_bool_neq in E2. contradiction.
  - apply drawdown_pos_start.
Qed.

Lemma calculate_drawdown_spec_witness :
  exists dd dur, calculate_drawdown [100; 90; 110] = Some (dd, dur)
  /\ 0 <= dd <= 1 /\ (1 <= dur <= 3)%Z.
Proof.
  refine (proj2 (calculate_drawdown_spec 100 [90; 110]) _ _).
  - reflexivity.
  - repeat constructor; discriminate.
Defined.

(** Under the conditions of C10 the equity curve of [run] never makes
    [calculate_drawdown] divide by zero: it returns a maximum drawdown in
    [0, 1] and a duration of at most the number of recorded points. *)
Theorem run_drawdown_defined (cfg : BacktestConfig) (fm : Fills.FillModel) (rng : Fills.Rng)
        (snaps : list Snapshot) (gens : list Generator) :
  0 < initial_capital cfg ->
  max_position_pct cfg * ((99 # 100) + fee_per_contract cfg) < 1 ->
  0 <= fee_per_contract cfg ->
  Fills.min_fill_pct fm <= 1 ->
  (forall n, 0 <= rng n < 1) ->
  exists dd dur,
    calculate_drawdown (map snd (snd (run cfg fm rng snaps gens))) = Some (dd, dur)
    /\ 0 <= dd <= 1
    /\ (0 <= dur <= Z.of_nat (List.length (snd (run cfg fm rng snaps gens))))%Z.
Proof.
  intros H0 Hpct Hfee Hmin Hrng. unfold run.
  destruct (CapitalProofs.run_loop_inv cfg fm rng Hpct Hfee Hmin Hrng gens snaps
              (init_state cfg) [] ltac:(split; [exact H0 | constructor]) (Forall_nil _))
    as [_ Hcur].
  destruct (snd (run_loop cfg fm rng gens snaps (init_state cfg) [])) as [|[t e0] rest].
  - exists 0, 0%Z. split; [reflexivity | split; simpl; lra || lia].
  - inversion Hcur as [|? ? He Hr]; subst. simpl in He.
    assert (Hr' : Forall (fun e => 0 <= e) (map snd rest)).
    { apply Forall_map. eapply Forall_impl; [| exact Hr]. intros x Hx. simpl in Hx. lra. }
    destruct (drawdown_pos_start e0 (map snd rest) He Hr') as (dd & dur & H1 & H2 & H3).
    exists dd, dur. split; [exact H1 | split; [exact H2 |]].
    simpl in H3 |- *. rewrite length_map in H3. lia.
Qed.

Lemma run_drawdown_defined_witness :
  exists dd dur,
    calculate_drawdown (map snd (snd (run ClaimDefs.cfg_jan Fills.default_fill_model
                                        (fun _ => 1 # 2) [ClaimDefs.snap_at 3600]
                                        [ClaimDefs.gen_yes_1000]))) = Some (dd, dur)
    /\ 0 <= dd <= 1
    /\ (0 <= dur <= Z.of_nat (List.length (snd (run ClaimDefs.cfg_jan Fills.default_fill_model
                                        (fun _ => 1 # 2) [ClaimDefs.snap_at 3600]
                                        [ClaimDefs.gen_yes_1000]))))%Z.
Proof.
  refine (run_drawdown_defined ClaimDefs.cfg_jan Fills.default_fill_model (fun _ => 1 # 2)
            [ClaimDefs.snap_at 3600] [ClaimDefs.gen_yes_1000] _ _ _ _ _).
  - reflexivity.
  - reflexivity.
  - discriminate.
  - discriminate.
  - intro n. split; [discriminate | reflexivity].
Defined.
End MetricsProofs.
